(** * LiveAvatar: capture session lifecycle, audio envelope and avatar compositor

    A shallow embedding of the [LiveAvatar] component (src/unnamed/part_000):
    [computeRms], the [LM] index table, [SKELETON_CONNECTIONS], the [render]
    closure and the two branches of the [started] effect (stop and start).

    Numbers.  The component computes with JavaScript numbers.  They are
    idealised here as real numbers: [Math.max], [Math.min], [Math.sqrt] and
    [Math.hypot] are [Rmax], [Rmin] and [sqrt], and no rounding, infinity or
    NaN is modelled.  Every constant that appears below is the decimal
    constant of the source read as a rational.  The three scalar formulas the
    scenarios quote are also given on binary64 numbers, in [Binary64], and
    evaluated there at the quoted inputs.

    Effects.  The refs of the component ([useRef] cells) are the fields of
    [State].  Calls into the platform (media devices, audio graph, pose
    detector, frame pump, animation frames, console) are appended to [log];
    drawing operations on the 2D context are appended to [surface].  A call
    may throw: [throws] in [Env] decides which ones do, and a computation in
    [M] returns [Ok] or [Throw] together with the state reached so far, as a
    JavaScript exception leaves earlier assignments in place. *)

From Stdlib Require Import String.
From Stdlib Require Import Reals Lra Lia List Bool Arith.
From Stdlib Require Floats.PrimFloat.
Import ListNotations.
Open Scope R_scope.

(** ** Data *)

(** A pose keypoint: normalized planar coordinates. *)
Record Landmark : Type := mkLandmark { x : R; y : R }.

(** [results.poseLandmarks]: an index-addressed array ([any[]] in the source);
    [None] entries stand for [null]/[undefined] elements. *)
Definition Landmarks : Type := list (option Landmark).

(** [lm[i]] followed by a truthiness test: an index past the end reads
    [undefined], which is falsy like [null]. *)
Definition lm_at (lm : Landmarks) (i : nat) : option Landmark :=
  match nth_error lm i with
  | Some (Some p) => Some p
  | _ => None
  end.

Module LM.
Definition LEFT_SHOULDER : nat := 11.
Definition RIGHT_SHOULDER : nat := 12.
Definition LEFT_ELBOW : nat := 13.
Definition RIGHT_ELBOW : nat := 14.
Definition LEFT_WRIST : nat := 15.
Definition RIGHT_WRIST : nat := 16.
Definition LEFT_HIP : nat := 23.
Definition RIGHT_HIP : nat := 24.
Definition LEFT_KNEE : nat := 25.
Definition RIGHT_KNEE : nat := 26.
Definition LEFT_ANKLE : nat := 27.
Definition RIGHT_ANKLE : nat := 28.
End LM.

Definition SKELETON_CONNECTIONS : list (nat * nat) :=
  [ (LM.LEFT_SHOULDER, LM.RIGHT_SHOULDER);
    (LM.LEFT_SHOULDER, LM.LEFT_ELBOW);
    (LM.LEFT_ELBOW, LM.LEFT_WRIST);
    (LM.RIGHT_SHOULDER, LM.RIGHT_ELBOW);
    (LM.RIGHT_ELBOW, LM.RIGHT_WRIST);
    (LM.LEFT_HIP, LM.RIGHT_HIP);
    (LM.LEFT_SHOULDER, LM.LEFT_HIP);
    (LM.RIGHT_SHOULDER, LM.RIGHT_HIP);
    (LM.LEFT_HIP, LM.LEFT_KNEE);
    (LM.LEFT_KNEE, LM.LEFT_ANKLE);
    (LM.RIGHT_HIP, LM.RIGHT_KNEE);
    (LM.RIGHT_KNEE, LM.RIGHT_ANKLE) ].

Definition Float32Array : Type := list R.

(** The analysis node: its configuration and the time-domain waveform it
    currently holds. *)
Record AnalyserNode : Type := mkAnalyser {
  fftSize : nat;
  smoothingTimeConstant : R;
  timeDomainData : list R
}.

Definition MediaStreamTrack : Type := nat.
Definition MediaStream : Type := list MediaStreamTrack.

(** The hidden [<video>] element. *)
Record Video : Type := mkVideo {
  srcObject : option MediaStream;
  readyState : nat
}.

(** The [<canvas>] element; [context2d] tells whether [getContext("2d")]
    yields a context. *)
Record Canvas : Type := mkCanvas {
  width : R;
  height : R;
  context2d : bool
}.

(** Operations on the 2D context, in the order they are issued. *)
Inductive DrawCmd : Type :=
| ClearRect (left top w h : R)
| FillStyle (colour : string)
| FillRect (left top w h : R)
| LineWidth (w : R)
| StrokeStyle (colour : string)
| GlobalAlpha (a : R)
| BeginPath
| MoveTo (px py : R)
| LineTo (px py : R)
| Stroke
| Arc (cx cy radius startAngle endAngle : R)
| Fill
| RoundRect (left top w h radii : R)
| Save
| Restore
| DrawImage (dx dy dw dh : R).

(** ** The audio envelope *)

(** [analyser.getFloatTimeDomainData(buffer)]: copies the waveform into the
    buffer; samples that do not fit are dropped, buffer elements past the
    waveform are left as they were. *)
Definition getFloatTimeDomainData (analyser : AnalyserNode) (buffer : Float32Array)
  : Float32Array :=
  firstn (length buffer) (timeDomainData analyser)
  ++ skipn (length (timeDomainData analyser)) buffer.

(** The loop of [computeRms]: [sumSquares += v * v] over the buffer. *)
Definition sumSquares (buffer : Float32Array) : R :=
  fold_left (fun acc v => acc + v * v) buffer 0.

(** [const rms = Math.sqrt(sumSquares / buffer.length)]. *)
Definition rmsOf (buffer : Float32Array) : R :=
  sqrt (sumSquares buffer / INR (length buffer)).

(** [computeRms]: returns the scaled value and the buffer as the analyser
    left it. *)
Definition computeRms (analyser : AnalyserNode) (buffer : Float32Array)
  : R * Float32Array :=
  let buffer := getFloatTimeDomainData analyser buffer in
  let rms := rmsOf buffer in
  let scaled := Rmax 0 (Rmin 1 ((rms - 0.01) * 12)) in
  (scaled, buffer).

(** ** The compositor: the drawing statements of [render] *)

Definition Math_hypot (a b : R) : R := sqrt (a * a + b * b).

(** [Math.round]: the nearest integer, halves upwards. *)
Definition Math_round (r : R) : R := IZR (Int_part (r + / 2)).

(** [shoulderDist] of [render]. *)
Definition shoulderDist (canvas : Canvas) (ls rs : Landmark) : R :=
  Math_hypot ((x ls - x rs) * width canvas) ((y ls - y rs) * height canvas).

(** [headRadius] of the tracked branch of [render]. *)
Definition headRadius (canvas : Canvas) (ls rs : Landmark) : R :=
  Rmax 24 (Rmin 80 (shoulderDist canvas ls rs * 0.35)).

(** [let mouthOpen = idle; if (analyser && buf) mouthOpen = computeRms(analyser, buf)],
    with the buffer as it is afterwards. *)
Definition mouthOpenOr (idle : R) (analyser : option AnalyserNode)
  (buf : option Float32Array) : R * option Float32Array :=
  match analyser, buf with
  | Some a, Some b => let (v, b') := computeRms a b in (v, Some b')
  | _, _ => (idle, buf)
  end.

(** The [for (const [a, b] of SKELETON_CONNECTIONS)] loop. *)
Definition skeletonSegments (canvas : Canvas) (lm : Landmarks) : list DrawCmd :=
  flat_map
    (fun ab : nat * nat =>
       let (a, b) := ab in
       match lm_at lm a, lm_at lm b with
       | Some p1, Some p2 =>
           [ MoveTo (x p1 * width canvas) (y p1 * height canvas);
             LineTo (x p2 * width canvas) (y p2 * height canvas) ]
       | _, _ => []
       end)
    SKELETON_CONNECTIONS.

Definition drawBackground (canvas : Canvas) : list DrawCmd :=
  [ ClearRect 0 0 (width canvas) (height canvas);
    FillStyle "#0f172a";
    FillRect 0 0 (width canvas) (height canvas) ].

Definition drawSkeleton (canvas : Canvas) (lm : Landmarks) : list DrawCmd :=
  [ LineWidth 6; StrokeStyle "#38bdf8"; GlobalAlpha 0.9; BeginPath ]
  ++ skeletonSegments canvas lm
  ++ [ Stroke; GlobalAlpha 1 ].

(** Head, eyes and mouth of the tracked branch ([if (ls && rs)]). *)
Definition drawTrackedFace (canvas : Canvas) (ls rs : Landmark) (mouthOpen : R)
  : list DrawCmd :=
  let cx := ((x ls + x rs) / 2) * width canvas in
  let cy := ((y ls + y rs) / 2) * height canvas - 80 in
  let headRadius := headRadius canvas ls rs in
  let eyeOffsetX := headRadius * 0.35 in
  let eyeOffsetY := headRadius * - 0.1 in
  let eyeR := Rmax 3 (headRadius * 0.08) in
  let mouthWidth := headRadius * 0.9 in
  let mouthHeight := Rmax (headRadius * 0.08) (headRadius * mouthOpen * 0.6) in
  [ FillStyle "#e5e7eb"; BeginPath; Arc cx cy headRadius 0 (PI * 2); Fill;
    FillStyle "#111827"; BeginPath;
    Arc (cx - eyeOffsetX) (cy + eyeOffsetY) eyeR 0 (PI * 2);
    Arc (cx + eyeOffsetX) (cy + eyeOffsetY) eyeR 0 (PI * 2);
    Fill;
    FillStyle "#ef4444"; BeginPath;
    RoundRect (cx - mouthWidth / 2) (cy + headRadius * 0.35) mouthWidth mouthHeight 8;
    Fill ].

(** The [else] branch: the idle face. *)
Definition drawIdleFace (canvas : Canvas) (mouthOpen : R) : list DrawCmd :=
  let cx := width canvas / 2 in
  let cy := height canvas / 2 - 60 in
  let headRadius := 60 in
  let mouthWidth := 52 in
  let mouthHeight := Rmax 6 (mouthOpen * 30) in
  [ FillStyle "#e5e7eb"; BeginPath; Arc cx cy headRadius 0 (PI * 2); Fill;
    FillStyle "#111827"; BeginPath;
    Arc (cx - 20) (cy - 6) 6 0 (PI * 2);
    Arc (cx + 20) (cy - 6) 6 0 (PI * 2);
    Fill;
    FillStyle "#ef4444"; BeginPath;
    RoundRect (cx - mouthWidth / 2) (cy + 26) mouthWidth mouthHeight 6;
    Fill ].

(** The camera thumbnail, drawn once [video.readyState >= 2]. *)
Definition drawPreview (canvas : Canvas) (video : option Video) : list DrawCmd :=
  match video with
  | Some v =>
      if (2 <=? readyState v)%nat then
        let previewW := 200 in
        let previewH := Math_round (previewW * (9 / 16)) in
        [ Save; GlobalAlpha 0.7;
          DrawImage (width canvas - previewW - 14) (height canvas - previewH - 14)
            previewW previewH;
          Restore ]
      else []
  | None => []
  end.

(** [lm && lm.length]. *)
Definition hasLandmarks (lm : option Landmarks) : option Landmarks :=
  match lm with
  | Some (p :: l) => Some (p :: l)
  | _ => None
  end.

(** Everything [render] draws in one frame, from the refs it reads, and the
    sample buffer as the frame leaves it. *)
Definition drawFrame (canvas : Canvas) (lm : option Landmarks)
  (analyser : option AnalyserNode) (buf : option Float32Array)
  (video : option Video) : list DrawCmd * option Float32Array :=
  let (body, buf') :=
    match hasLandmarks lm with
    | Some lm =>
        match lm_at lm LM.LEFT_SHOULDER, lm_at lm LM.RIGHT_SHOULDER with
        | Some ls, Some rs =>
            let (mouthOpen, buf') := mouthOpenOr 0.15 analyser buf in
            (drawSkeleton canvas lm ++ drawTrackedFace canvas ls rs mouthOpen, buf')
        | _, _ => (drawSkeleton canvas lm, buf)
        end
    | None =>
        let (mouthOpen, buf') := mouthOpenOr 0.12 analyser buf in
        (drawIdleFace canvas mouthOpen, buf')
    end in
  (drawBackground canvas ++ body ++ drawPreview canvas video, buf').

(** ** The scalar formulas on doubles *)

Set Warnings "-inexact-float".

Module Binary64.

Import Floats.PrimFloat.
Local Open Scope float_scope.

(** [Math.max] and [Math.min] of two doubles: NaN if either is NaN, else the
    larger (smaller) one; the sign of a zero result is not modelled. *)
Definition Math_max (a b : float) : float :=
  if is_nan a || is_nan b then nan else if a <? b then b else a.

Definition Math_min (a b : float) : float :=
  if is_nan a || is_nan b then nan else if b <? a then b else a.

(** [scaled] of [computeRms]. *)
Definition scaled (rms : float) : float :=
  Math_max 0 (Math_min 1 ((rms - 0.01) * 12)).

(** [headRadius] of the tracked branch, from [shoulderDist]. *)
Definition headRadius (shoulderDist : float) : float :=
  Math_max 24 (Math_min 80 (shoulderDist * 0.35)).

(** [mouthHeight] of the tracked and of the idle branch. *)
Definition mouthHeight (headRadius mouthOpen : float) : float :=
  Math_max (headRadius * 0.08) (headRadius * mouthOpen * 0.6).

Definition idleMouthHeight (mouthOpen : float) : float :=
  Math_max 6 (mouthOpen * 30).

(** The quoted inputs, evaluated. *)
Definition scenarios : bool :=
  (0 <? scaled 0.0105)
  && (scaled 0.01 =? 0)
  && (scaled 0.1 =? 1)
  && (scaled (0.01 + 1 / 12) =? 1)
  && (headRadius 200 =? 70)
  && (idleMouthHeight 0.12 =? 6)
  && (mouthHeight 70 0 <? mouthHeight 70 0.15).

End Binary64.

(** ** Platform objects, events and resources *)

(** The pose detector with the options [setOptions] gives it. *)
Record Pose : Type := mkPose {
  modelComplexity : nat;
  smoothLandmarks : bool;
  minDetectionConfidence : R;
  minTrackingConfidence : R
}.

(** The frame pump ([Camera] of camera_utils) and the size it is given. *)
Record Camera : Type := mkCamera { cameraWidth : R; cameraHeight : R }.

Inductive AudioContext : Type := mkAudioContext.

(** Calls into the platform, and the platform firing an animation frame. *)
Inductive Event : Type :=
| GetUserMedia (stream : MediaStream)
| VideoPlay
| NewAudioContext
| CreateMediaStreamSource
| CreateAnalyser
| SourceConnect
| NewPose
| PoseSetOptions
| PoseOnResults
| PoseSend
| NewCamera
| CameraStart
| RequestAnimationFrame (handle : nat)
| AnimationFrame (handle : nat)
| CancelAnimationFrame (handle : nat)
| CameraStop
| PoseClose
| TrackStop (track : MediaStreamTrack)
| AnalyserDisconnect
| AudioContextClose
| ConsoleError.

(** What the platform holds on behalf of the component. *)
Record Resources : Type := mkResources {
  activeTracks : list MediaStreamTrack;
  audioContexts : nat;
  analysers : nat;
  detectors : nat;
  framePumps : nat;
  pendingFrames : list nat
}.

Definition noResources : Resources := mkResources [] 0 0 0 0 [].

Definition dropId (n : nat) (l : list nat) : list nat :=
  filter (fun m => negb (m =? n)%nat) l.

(** The effect of one event on the resources held. *)
Definition perform (r : Resources) (e : Event) : Resources :=
  match e with
  | GetUserMedia stream =>
      mkResources (activeTracks r ++ stream) (audioContexts r) (analysers r)
        (detectors r) (framePumps r) (pendingFrames r)
  | TrackStop t =>
      mkResources (dropId t (activeTracks r)) (audioContexts r) (analysers r)
        (detectors r) (framePumps r) (pendingFrames r)
  | NewAudioContext =>
      mkResources (activeTracks r) (S (audioContexts r)) (analysers r)
        (detectors r) (framePumps r) (pendingFrames r)
  | AudioContextClose =>
      mkResources (activeTracks r) (pred (audioContexts r)) (analysers r)
        (detectors r) (framePumps r) (pendingFrames r)
  | SourceConnect =>
      mkResources (activeTracks r) (audioContexts r) (S (analysers r))
        (detectors r) (framePumps r) (pendingFrames r)
  | AnalyserDisconnect =>
      mkResources (activeTracks r) (audioContexts r) (pred (analysers r))
        (detectors r) (framePumps r) (pendingFrames r)
  | NewPose =>
      mkResources (activeTracks r) (audioContexts r) (analysers r)
        (S (detectors r)) (framePumps r) (pendingFrames r)
  | PoseClose =>
      mkResources (activeTracks r) (audioContexts r) (analysers r)
        (pred (detectors r)) (framePumps r) (pendingFrames r)
  | CameraStart =>
      mkResources (activeTracks r) (audioContexts r) (analysers r)
        (detectors r) (S (framePumps r)) (pendingFrames r)
  | CameraStop =>
      mkResources (activeTracks r) (audioContexts r) (analysers r)
        (detectors r) (pred (framePumps r)) (pendingFrames r)
  | RequestAnimationFrame h =>
      mkResources (activeTracks r) (audioContexts r) (analysers r)
        (detectors r) (framePumps r) (pendingFrames r ++ [h])
  | AnimationFrame h | CancelAnimationFrame h =>
      mkResources (activeTracks r) (audioContexts r) (analysers r)
        (detectors r) (framePumps r) (dropId h (pendingFrames r))
  | _ => r
  end.

(** The resources held after a history of events. *)
Definition held (history : list Event) : Resources :=
  fold_left perform history noResources.

(** ** The component state *)

Record State : Type := mkState {
  canvasRef : option Canvas;
  videoRef : option Video;
  cameraRef : option Camera;
  poseRef : option Pose;
  landmarksRef : option Landmarks;
  audioContextRef : option AudioContext;
  analyserRef : option AnalyserNode;
  audioBufferRef : option Float32Array;
  rafRef : option nat;
  frameCounter : nat;
  surface : list DrawCmd;
  log : list Event
}.

Definition set_videoRef (v : option Video) (s : State) : State :=
  mkState (canvasRef s) v (cameraRef s) (poseRef s) (landmarksRef s)
    (audioContextRef s) (analyserRef s) (audioBufferRef s) (rafRef s)
    (frameCounter s) (surface s) (log s).

Definition set_cameraRef (v : option Camera) (s : State) : State :=
  mkState (canvasRef s) (videoRef s) v (poseRef s) (landmarksRef s)
    (audioContextRef s) (analyserRef s) (audioBufferRef s) (rafRef s)
    (frameCounter s) (surface s) (log s).

Definition set_poseRef (v : option Pose) (s : State) : State :=
  mkState (canvasRef s) (videoRef s) (cameraRef s) v (landmarksRef s)
    (audioContextRef s) (analyserRef s) (audioBufferRef s) (rafRef s)
    (frameCounter s) (surface s) (log s).

Definition set_landmarksRef (v : option Landmarks) (s : State) : State :=
  mkState (canvasRef s) (videoRef s) (cameraRef s) (poseRef s) v
    (audioContextRef s) (analyserRef s) (audioBufferRef s) (rafRef s)
    (frameCounter s) (surface s) (log s).

Definition set_audioContextRef (v : option AudioContext) (s : State) : State :=
  mkState (canvasRef s) (videoRef s) (cameraRef s) (poseRef s) (landmarksRef s)
    v (analyserRef s) (audioBufferRef s) (rafRef s)
    (frameCounter s) (surface s) (log s).

Definition set_analyserRef (v : option AnalyserNode) (s : State) : State :=
  mkState (canvasRef s) (videoRef s) (cameraRef s) (poseRef s) (landmarksRef s)
    (audioContextRef s) v (audioBufferRef s) (rafRef s)
    (frameCounter s) (surface s) (log s).

Definition set_audioBufferRef (v : option Float32Array) (s : State) : State :=
  mkState (canvasRef s) (videoRef s) (cameraRef s) (poseRef s) (landmarksRef s)
    (audioContextRef s) (analyserRef s) v (rafRef s)
    (frameCounter s) (surface s) (log s).

Definition set_rafRef (v : option nat) (s : State) : State :=
  mkState (canvasRef s) (videoRef s) (cameraRef s) (poseRef s) (landmarksRef s)
    (audioContextRef s) (analyserRef s) (audioBufferRef s) v
    (frameCounter s) (surface s) (log s).

Definition set_frameCounter (v : nat) (s : State) : State :=
  mkState (canvasRef s) (videoRef s) (cameraRef s) (poseRef s) (landmarksRef s)
    (audioContextRef s) (analyserRef s) (audioBufferRef s) (rafRef s)
    v (surface s) (log s).

Definition paint (cmds : list DrawCmd) (s : State) : State :=
  mkState (canvasRef s) (videoRef s) (cameraRef s) (poseRef s) (landmarksRef s)
    (audioContextRef s) (analyserRef s) (audioBufferRef s) (rafRef s)
    (frameCounter s) (surface s ++ cmds) (log s).

Definition record (e : Event) (s : State) : State :=
  mkState (canvasRef s) (videoRef s) (cameraRef s) (poseRef s) (landmarksRef s)
    (audioContextRef s) (analyserRef s) (audioBufferRef s) (rafRef s)
    (frameCounter s) (surface s) (log s ++ [e]).

(** ** Computations that may throw *)

Inductive Outcome (A : Type) : Type :=
| Ok (a : A)
| Throw (e : Event).
Arguments Ok {A} a.
Arguments Throw {A} e.

Definition M (A : Type) : Type := State -> Outcome A * State.

Definition ret {A} (a : A) : M A := fun s => (Ok a, s).

Definition bind {A B} (m : M A) (k : A -> M B) : M B :=
  fun s =>
    match m s with
    | (Ok a, s') => k a s'
    | (Throw e, s') => (Throw e, s')
    end.

Definition gets {A} (f : State -> A) : M A := fun s => (Ok (f s), s).

Definition modify (f : State -> State) : M unit := fun s => (Ok tt, f s).

(** [try { m } catch (err) { h err }]. *)
Definition try_catch {A} (m : M A) (h : Event -> M A) : M A :=
  fun s =>
    match m s with
    | (Ok a, s') => (Ok a, s')
    | (Throw e, s') => h e s'
    end.

Declare Scope session_scope.
Delimit Scope session_scope with session.
Notation "v <- m ;; k" := (bind m (fun v => k))
  (at level 61, m at next level, right associativity) : session_scope.
Notation "m ;; k" := (bind m (fun _ => k))
  (at level 61, right associativity) : session_scope.

(** [array.forEach(f)]. *)
Fixpoint forEach {A} (l : list A) (f : A -> M unit) : M unit :=
  match l with
  | [] => ret tt
  | a :: l' => bind (f a) (fun _ => forEach l' f)
  end.

(** The surroundings of one run of the effect. *)
Record Env : Type := mkEnv {
  throws : Event -> bool;       (* the calls that throw or reject *)
  userMedia : MediaStream;      (* what [getUserMedia] resolves to *)
  cancelled : bool;             (* the cleanup ran while [getUserMedia] was pending *)
  microphone : list R           (* the waveform the analysis node starts with *)
}.

(** ** The render loop and the [started] effect *)

Definition canvasSizeWidth : R := 1280.
Definition canvasSizeHeight : R := 720.

(** The effect on [canvasSize]: sizes the canvas once it is mounted. *)
Definition sizeCanvas (s : State) : State :=
  match canvasRef s with
  | None => s
  | Some canvas =>
      mkState (Some (mkCanvas canvasSizeWidth canvasSizeHeight (context2d canvas)))
        (videoRef s) (cameraRef s) (poseRef s) (landmarksRef s)
        (audioContextRef s) (analyserRef s) (audioBufferRef s) (rafRef s)
        (frameCounter s) (surface s) (log s)
  end.

Section Session.

Variable env : Env.

Open Scope session_scope.

(** A platform call: it throws, or it happens and is logged. *)
Definition call (e : Event) : M unit :=
  fun s => if throws env e then (Throw e, s) else (Ok tt, record e s).

(** [requestAnimationFrame(render)]: handles are positive and increase. *)
Definition requestAnimationFrame : M nat :=
  n <- gets frameCounter ;;
  call (RequestAnimationFrame (S n)) ;;
  modify (set_frameCounter (S n)) ;;
  ret (S n).

(** The [render] closure: one frame. *)
Definition render : M unit :=
  canvas <- gets canvasRef ;;
  match canvas with
  | None => ret tt
  | Some canvas =>
      if negb (context2d canvas) then ret tt
      else
        lm <- gets landmarksRef ;;
        analyser <- gets analyserRef ;;
        buf <- gets audioBufferRef ;;
        video <- gets videoRef ;;
        let frame := drawFrame canvas lm analyser buf video in
        modify (paint (fst frame)) ;;
        modify (set_audioBufferRef (snd frame)) ;;
        handle <- requestAnimationFrame ;;
        modify (set_rafRef (Some handle))
  end.

(** The stop branch of the effect ([if (!started) { ... return; }]). *)
Definition stop : M unit :=
  raf <- gets rafRef ;;
  match raf with
  | Some (S h) => call (CancelAnimationFrame (S h))
  | _ => ret tt
  end ;;
  modify (set_rafRef None) ;;
  camera <- gets cameraRef ;;
  match camera with
  | Some _ => call CameraStop
  | None => ret tt
  end ;;
  modify (set_cameraRef None) ;;
  pose <- gets poseRef ;;
  match pose with
  | Some _ => call PoseClose
  | None => ret tt
  end ;;
  modify (set_poseRef None) ;;
  v <- gets videoRef ;;
  match v with
  | Some video =>
      match srcObject video with
      | Some stream =>
          forEach stream (fun t => call (TrackStop t)) ;;
          modify (set_videoRef (Some (mkVideo None (readyState video))))
      | None => ret tt
      end
  | None => ret tt
  end ;;
  analyser <- gets analyserRef ;;
  match analyser with
  | Some _ => call AnalyserDisconnect
  | None => ret tt
  end ;;
  modify (set_analyserRef None) ;;
  ac <- gets audioContextRef ;;
  match ac with
  | Some _ => call AudioContextClose
  | None => ret tt
  end ;;
  modify (set_audioContextRef None) ;;
  modify (set_audioBufferRef None).

(** The body of the [try] block of the start branch. *)
Definition acquire : M unit :=
  call (GetUserMedia (userMedia env)) ;;
  let stream := userMedia env in
  if cancelled env then ret tt
  else
    v <- gets videoRef ;;
    match v with
    | Some video =>
        modify (set_videoRef (Some (mkVideo (Some stream) (readyState video)))) ;;
        call VideoPlay
    | None => ret tt
    end ;;
    call NewAudioContext ;;
    modify (set_audioContextRef (Some mkAudioContext)) ;;
    call CreateMediaStreamSource ;;
    call CreateAnalyser ;;
    let analyser := mkAnalyser 1024 0.6 (microphone env) in
    call SourceConnect ;;
    modify (set_analyserRef (Some analyser)) ;;
    modify (set_audioBufferRef (Some (repeat 0%R (fftSize analyser)))) ;;
    call NewPose ;;
    call PoseSetOptions ;;
    let pose := mkPose 1 true 0.5 0.5 in
    call PoseOnResults ;;
    modify (set_poseRef (Some pose)) ;;
    v <- gets videoRef ;;
    match v with
    | Some _ =>
        call NewCamera ;;
        modify (set_cameraRef (Some (mkCamera canvasSizeWidth canvasSizeHeight))) ;;
        call CameraStart
    | None => ret tt
    end ;;
    render.

(** The start branch: the async function with its [catch], which logs. *)
Definition start : M unit :=
  try_catch acquire (fun _ => fun s => (Ok tt, record ConsoleError s)).

(** The effect on [started]. *)
Definition effect (started : bool) : M unit :=
  if negb started then stop else start.

(** What happens between [start] and [stop]: the platform fires the pending
    animation frame, the detector reports, the frame pump delivers a camera
    frame, the microphone signal changes. *)
Inductive Tick : Type :=
| Paint
| PoseResults (poseLandmarks : option Landmarks)
| CameraFrame
| Audio (waveform : list R).

(** [onFrame] of the frame pump; a rejection stays inside the pump. *)
Definition onFrame : M unit :=
  pose <- gets poseRef ;;
  v <- gets videoRef ;;
  match pose, v with
  | Some _, Some _ => call PoseSend
  | _, _ => ret tt
  end.

(** The [onResults] callback: [landmarksRef.current = results.poseLandmarks ?? null]. *)
Definition onResults (poseLandmarks : option Landmarks) : M unit :=
  modify (set_landmarksRef poseLandmarks).

Definition isPending (h : nat) (s : State) : bool :=
  existsb (Nat.eqb h) (pendingFrames (held (log s))).

Definition step (s : State) (t : Tick) : State :=
  match t with
  | Paint =>
      match rafRef s with
      | Some h =>
          if isPending h s then snd (render (record (AnimationFrame h) s)) else s
      | None => s
      end
  | PoseResults r =>
      match poseRef s with
      | Some _ => snd (onResults r s)
      | None => s
      end
  | CameraFrame =>
      match cameraRef s with
      | Some _ => snd (onFrame s)
      | None => s
      end
  | Audio w =>
      match analyserRef s with
      | Some a =>
          set_analyserRef (Some (mkAnalyser (fftSize a) (smoothingTimeConstant a) w)) s
      | None => s
      end
  end.

Definition run (s : State) (ticks : list Tick) : State :=
  fold_left step ticks s.

(** The release calls that are due in a state, in the order [stop] issues
    them. *)
Definition releaseSteps (s : State) : list Event :=
  match rafRef s with
  | Some (S h) => [CancelAnimationFrame (S h)]
  | _ => []
  end
  ++ match cameraRef s with Some _ => [CameraStop] | None => [] end
  ++ match poseRef s with Some _ => [PoseClose] | None => [] end
  ++ match videoRef s with
     | Some video =>
         match srcObject video with
         | Some stream => map TrackStop stream
         | None => []
         end
     | None => []
     end
  ++ match analyserRef s with Some _ => [AnalyserDisconnect] | None => [] end
  ++ match audioContextRef s with Some _ => [AudioContextClose] | None => [] end.

End Session.

(** The component as mounted: canvas and video element present, nothing
    acquired, nothing drawn. *)
Definition mounted : State :=
  sizeCanvas
    (mkState (Some (mkCanvas 300 150 true)) (Some (mkVideo None 0))
       None None None None None None None 0 [] []).

(** ** Reading a frame back *)

(** The value clamped to an interval, as the specification writes it. *)
Definition clamp (v lo hi : R) : R :=
  if Rlt_dec v lo then lo else if Rlt_dec hi v then hi else v.

(** The radii of the circles of a frame, in drawing order: the head first,
    then the eyes. *)
Definition arcRadii (cmds : list DrawCmd) : list R :=
  flat_map (fun c => match c with Arc _ _ r _ _ => [r] | _ => [] end) cmds.

(** The heights of the rounded rectangles of a frame: the mouth. *)
Definition mouthHeights (cmds : list DrawCmd) : list R :=
  flat_map (fun c => match c with RoundRect _ _ _ h _ => [h] | _ => [] end) cmds.

(** The line segments of a frame: each [moveTo] with the [lineTo] that
    follows it. *)
Fixpoint segments (cmds : list DrawCmd) : list (R * R * (R * R)) :=
  match cmds with
  | [] => []
  | MoveTo a b :: tl =>
      match tl with
      | LineTo c d :: tl' => ((a, b), (c, d)) :: segments tl'
      | _ => segments tl
      end
  | _ :: tl => segments tl
  end.

(** The segments the specification asks for: one per connection whose two
    keypoints exist, from keypoint to keypoint in surface coordinates. *)
Fixpoint expectedSegments (canvas : Canvas) (lm : Landmarks)
  (connections : list (nat * nat)) : list (R * R * (R * R)) :=
  match connections with
  | [] => []
  | (a, b) :: rest =>
      match lm_at lm a, lm_at lm b with
      | Some p1, Some p2 =>
          ((x p1 * width canvas, y p1 * height canvas),
           (x p2 * width canvas, y p2 * height canvas))
          :: expectedSegments canvas lm rest
      | _, _ => expectedSegments canvas lm rest
      end
  end.

(** A command that neither starts nor ends a segment. *)
Definition offPath (c : DrawCmd) : bool :=
  match c with
  | MoveTo _ _ | LineTo _ _ => false
  | _ => true
  end.

(** ** Observing a run *)

(** The events of a list that happen when they are called in order: those
    before the first one that throws. *)
Fixpoint untilThrow (env : Env) (es : list Event) : list Event :=
  match es with
  | [] => []
  | e :: rest => if throws env e then [] else e :: untilThrow env rest
  end.

(** The first event of a list that throws. *)
Fixpoint firstThrow (env : Env) (es : list Event) : option Event :=
  match es with
  | [] => None
  | e :: rest => if throws env e then Some e else firstThrow env rest
  end.

(** The outcome of calling the events of a list in order. *)
Definition verdict (env : Env) (es : list Event) : Outcome unit :=
  match firstThrow env es with
  | Some e => Throw e
  | None => Ok tt
  end.

(** No call throws. *)
Definition quiet (env : Env) : Prop := forall e, throws env e = false.

(** The source of the playback surface. *)
Definition videoSource (s : State) : option MediaStream :=
  match videoRef s with
  | Some video => srcObject video
  | None => None
  end.

(** The stopped session: no resource is referenced and none is held. *)
Definition Stopped (s : State) : Prop :=
  rafRef s = None /\ cameraRef s = None /\ poseRef s = None
  /\ videoSource s = None
  /\ analyserRef s = None /\ audioContextRef s = None /\ audioBufferRef s = None
  /\ held (log s) = noResources.

(** The running session: every resource of [start] is referenced and held
    once, and one animation frame is pending. *)
Definition Running (env : Env) (s : State) (h : nat) : Prop :=
  (exists canvas, canvasRef s = Some canvas /\ context2d canvas = true)
  /\ rafRef s = Some (S h)
  /\ cameraRef s <> None /\ poseRef s <> None
  /\ videoRef s <> None /\ videoSource s = Some (userMedia env)
  /\ analyserRef s <> None /\ audioContextRef s <> None /\ audioBufferRef s <> None
  /\ held (log s) = mkResources (userMedia env) 1 1 1 1 [S h].

(** The release calls of [stop] for a running session with frame [h]
    pending. *)
Definition releases (env : Env) (h : nat) : list Event :=
  [CancelAnimationFrame h; CameraStop; PoseClose]
  ++ map TrackStop (userMedia env)
  ++ [AnalyserDisconnect; AudioContextClose].

(** The state with more events in its log. *)
Definition extend (es : list Event) (s : State) : State :=
  mkState (canvasRef s) (videoRef s) (cameraRef s) (poseRef s) (landmarksRef s)
    (audioContextRef s) (analyserRef s) (audioBufferRef s) (rafRef s)
    (frameCounter s) (surface s) (log s ++ es).

(** The state [stop] leaves when no release call throws. *)
Definition released (s : State) : State :=
  mkState (canvasRef s)
    match videoRef s with
    | Some video =>
        match srcObject video with
        | Some _ => Some (mkVideo None (readyState video))
        | None => Some video
        end
    | None => None
    end
    None None (landmarksRef s) None None None None
    (frameCounter s) (surface s) (log s ++ releaseSteps s).

(** Running [m] from [s] calls the events [es] in order, up to the first one
    that throws; when none throws the state reached satisfies [post]. *)
Definition Calls (env : Env) (m : M unit) (es : list Event) (s : State)
  (post : State -> Prop) : Prop :=
  fst (m s) = verdict env es
  /\ log (snd (m s)) = log s ++ untilThrow env es
  /\ (firstThrow env es = None -> post (snd (m s))).

(** The events of a [start] that runs to its end. *)
Definition startEvents (env : Env) (n : nat) : list Event :=
  [ GetUserMedia (userMedia env); VideoPlay; NewAudioContext; CreateMediaStreamSource;
    CreateAnalyser; SourceConnect; NewPose; PoseSetOptions; PoseOnResults;
    NewCamera; CameraStart; RequestAnimationFrame (S n) ].

(** ** The page and the rest of the component *)

(** [CDN]: where the detector's files are fetched from. *)
Definition CDN (file : string) : string :=
  ("https://cdn.jsdelivr.net/npm/@mediapipe/pose@0.5.1675469404/" ++ file)%string.

(** [Page] (src/app/layout.tsx): the [started] state and its two buttons.
    The start button is disabled while started, the stop button while not. *)
Inductive Click : Type := ClickStart | ClickStop.

Definition startDisabled (started : bool) : bool := started.
Definition stopDisabled (started : bool) : bool := negb started.

(** [onClick] of the two buttons: [setStarted(true)] and [setStarted(false)];
    a disabled button does not fire. *)
Definition onClick (started : bool) (c : Click) : bool :=
  match c with
  | ClickStart => if startDisabled started then started else true
  | ClickStop => if stopDisabled started then started else false
  end.

(** What happens to the mounted page: a click, or the platform calling back
    into the component. *)
Inductive PageEvent : Type :=
| Clicked (c : Click)
| Platform (t : Tick).

(** The page with its [LiveAvatar]: the effect on [started] runs again when
    [started] has changed. *)
Definition pageStep (env : Env) (p : bool * State) (ev : PageEvent) : bool * State :=
  let (started, s) := p in
  match ev with
  | Clicked c =>
      let started' := onClick started c in
      if Bool.eqb started' started then (started, s)
      else (started', snd (effect env started' s))
  | Platform t => (started, step env s t)
  end.

(** Mounting: [started] is [false]; the canvas is sized and the effect on
    [started] runs its stop branch. *)
Definition pageMount (env : Env) (s : State) : bool * State :=
  (false, snd (effect env false (sizeCanvas s))).

Definition pageRun (env : Env) (p : bool * State) (evs : list PageEvent) : bool * State :=
  fold_left (pageStep env) evs p.

(** The calls of [start] that are due in a state, in order. *)
Definition startSteps (env : Env) (s : State) : list Event :=
  GetUserMedia (userMedia env)
  :: if cancelled env then []
     else
       match videoRef s with Some _ => [VideoPlay] | None => [] end
       ++ [ NewAudioContext; CreateMediaStreamSource; CreateAnalyser; SourceConnect;
            NewPose; PoseSetOptions; PoseOnResults ]
       ++ match videoRef s with Some _ => [NewCamera; CameraStart] | None => [] end
       ++ match canvasRef s with
          | Some canvas =>
              if context2d canvas then [RequestAnimationFrame (S (frameCounter s))]
              else []
          | None => []
          end.

(** The part of the 2D context state a frame touches: [globalAlpha] and the
    values saved by [save()]. *)
Fixpoint alphaAfter (cmds : list DrawCmd) (alpha : R) (saved : list R) : R * list R :=
  match cmds with
  | [] => (alpha, saved)
  | GlobalAlpha a :: rest => alphaAfter rest a saved
  | Save :: rest => alphaAfter rest alpha (alpha :: saved)
  | Restore :: rest =>
      match saved with
      | a :: saved' => alphaAfter rest a saved'
      | [] => alphaAfter rest alpha []
      end
  | _ :: rest => alphaAfter rest alpha saved
  end.

(** The operations that put pixels on the surface, each with the
    [globalAlpha] in force when it is issued. *)
Fixpoint paintAlphas (cmds : list DrawCmd) (alpha : R) (saved : list R)
  : list (DrawCmd * R) :=
  match cmds with
  | [] => []
  | GlobalAlpha a :: rest => paintAlphas rest a saved
  | Save :: rest => paintAlphas rest alpha (alpha :: saved)
  | Restore :: rest =>
      match saved with
      | a :: saved' => paintAlphas rest a saved'
      | [] => paintAlphas rest alpha []
      end
  | (FillRect _ _ _ _ as c) :: rest
  | (Stroke as c) :: rest
  | (Fill as c) :: rest
  | (DrawImage _ _ _ _ as c) :: rest => (c, alpha) :: paintAlphas rest alpha saved
  | _ :: rest => paintAlphas rest alpha saved
  end.

(** The alpha each kind of paint is meant to have. *)
Definition alphaOf (c : DrawCmd) : R :=
  match c with
  | Stroke => 0.9
  | DrawImage _ _ _ _ => 0.7
  | _ => 1
  end.

(** A pose with all 33 keypoints of the body model. *)
Definition sampleFullBody : Landmarks :=
  repeat (Some (mkLandmark 0.5 0.5)) 33.

(** The circles of a frame with their centres, in drawing order. *)
Definition arcs (cmds : list DrawCmd) : list (R * R * R) :=
  flat_map (fun c => match c with Arc cx cy r _ _ => [(cx, cy, r)] | _ => [] end) cmds.



(** The thumbnails of a frame: position and size of each [drawImage]. *)
Definition thumbnails (cmds : list DrawCmd) : list (R * R * R * R) :=
  flat_map (fun c => match c with DrawImage dx dy dw dh => [(dx, dy, dw, dh)] | _ => [] end)
    cmds.

(** Canvas (with a 2D context) and video element are in the document. *)
Definition Mounted (s : State) : Prop :=
  (exists canvas, canvasRef s = Some canvas /\ context2d canvas = true)
  /\ videoRef s <> None.

(** What the page keeps: the session runs exactly when [started] is set. *)
Definition PageInv (env : Env) (p : bool * State) : Prop :=
  Mounted (snd p)
  /\ if fst p then exists h, Running env (snd p) h else Stopped (snd p).

(** ** Sample inputs *)

(** The canvas at the size the component gives it. *)
Definition sampleCanvas : Canvas := mkCanvas canvasSizeWidth canvasSizeHeight true.

(** A pose with the two shoulders only, 200 pixels apart on [sampleCanvas]. *)
Definition sampleShoulders : Landmarks :=
  repeat None 11 ++ [Some (mkLandmark 0.5 0.5); Some (mkLandmark 0.34375 0.5)].

(** A pose without shoulders. *)
Definition sampleNoShoulders : Landmarks := [Some (mkLandmark 0.5 0.1)].

(** An environment in which every call succeeds. *)
Definition quietEnv : Env := mkEnv (fun _ => false) [1; 2]%nat false [0.1].

(** The platform refuses camera and microphone. *)
Definition deniedEnv : Env :=
  mkEnv (fun e => match e with GetUserMedia _ => true | _ => false end)
    [1; 2]%nat false [0.1].

(** The pose detector cannot be constructed. *)
Definition noDetectorEnv : Env :=
  mkEnv (fun e => match e with NewPose => true | _ => false end)
    [1; 2]%nat false [0.1].

(** Stopping the frame pump throws. *)
Definition pumpStopThrowsEnv : Env :=
  mkEnv (fun e => match e with CameraStop => true | _ => false end)
    [1; 2]%nat false [0.1].

(** ** The audio envelope: thresholds *)

Lemma scaled_low (r : R) : r <= 0.01 -> Rmax 0 (Rmin 1 ((r - 0.01) * 12)) = 0.
Proof.
  intro H. rewrite Rmin_right by lra. apply Rmax_left. lra.
Qed.

Lemma scaled_positive (r : R) : 0.01 < r -> 0 < Rmax 0 (Rmin 1 ((r - 0.01) * 12)).
Proof.
  intro H. unfold Rmax, Rmin.
  destruct (Rle_dec 1 ((r - 0.01) * 12));
    destruct (Rle_dec 0 _); lra.
Qed.

Lemma scaled_high (r : R) : 0.01 + 1 / 12 <= r -> Rmax 0 (Rmin 1 ((r - 0.01) * 12)) = 1.
Proof.
  intro H. rewrite Rmin_left by lra. apply Rmax_right. lra.
Qed.

Lemma rmsOf_single (v : R) : 0 <= v -> rmsOf [v] = v.
Proof.
  intro H. unfold rmsOf, sumSquares. simpl.
  replace ((0 + v * v) / 1) with (Rsqr v) by (unfold Rsqr; field).
  apply sqrt_Rsqr. exact H.
Qed.

Lemma getFloatTimeDomainData_fill (a : AnalyserNode) (b : Float32Array) :
  length (timeDomainData a) = length b ->
  getFloatTimeDomainData a b = timeDomainData a.
Proof.
  intro H. unfold getFloatTimeDomainData.
  rewrite <- H, firstn_all, H, skipn_all. apply app_nil_r.
Qed.

(** C2, as stated, fails: an RMS of 0.0105 is below 0.01/12 + 0.01 and the
    envelope is positive. *)
Lemma C2_envelope_floor_counterexample :
  let analyser := mkAnalyser 1024 0.6 [0.0105] in
  let buffer := [0] in
  rmsOf (getFloatTimeDomainData analyser buffer) <= 0.01 / 12 + 0.01
  /\ fst (computeRms analyser buffer) <> 0.
Proof.
  cbv zeta. unfold computeRms.
  rewrite getFloatTimeDomainData_fill by reflexivity. cbn [timeDomainData fst].
  rewrite rmsOf_single by lra. split; [lra|].
  pose proof (scaled_positive 0.0105). lra.
Qed.

(** C2 (amended): for every RMS input [r <= 0.01] the envelope computed by
    [computeRms] is exactly 0, and for every larger RMS it is positive. *)
Theorem C2_envelope_floor (analyser : AnalyserNode) (buffer : Float32Array) :
  buffer <> [] ->
  let r := rmsOf (getFloatTimeDomainData analyser buffer) in
  (r <= 0.01 -> fst (computeRms analyser buffer) = 0)
  /\ (0.01 < r -> 0 < fst (computeRms analyser buffer)).
Proof.
  intros _ r. unfold computeRms. cbn [fst]. fold r. split; intro H.
  - apply scaled_low; exact H.
  - apply scaled_positive; exact H.
Qed.

Lemma C2_envelope_floor_witness :
  fst (computeRms (mkAnalyser 1024 0.6 [0.01]) [0]) = 0.
Proof.
  assert (Hne : [0] <> @nil R) by discriminate.
  apply (proj1 (C2_envelope_floor (mkAnalyser 1024 0.6 [0.01]) [0] Hne)).
  rewrite getFloatTimeDomainData_fill by reflexivity. cbn [timeDomainData].
  rewrite rmsOf_single by lra. lra.
Defined.

(** C8: for every RMS input [r >= 0.01 + 1/12] the envelope is exactly 1;
    an RMS of 0.1 gives clamp((0.1 - 0.01) * 12, 0, 1) = 1. *)
Theorem C8_envelope_ceiling (analyser : AnalyserNode) (buffer : Float32Array) :
  buffer <> [] ->
  let r := rmsOf (getFloatTimeDomainData analyser buffer) in
  (0.01 + 1 / 12 <= r -> fst (computeRms analyser buffer) = 1)
  /\ (r = 0.1 ->
      fst (computeRms analyser buffer) = clamp ((0.1 - 0.01) * 12) 0 1
      /\ clamp ((0.1 - 0.01) * 12) 0 1 = 1).
Proof.
  intros _ r. unfold computeRms. cbn [fst]. fold r.
  assert (Hc : clamp ((0.1 - 0.01) * 12) 0 1 = 1).
  { unfold clamp. destruct (Rlt_dec _ 0); [lra|]. destruct (Rlt_dec 1 _); lra. }
  split; intro H.
  - apply scaled_high; exact H.
  - rewrite Hc. split; [|reflexivity]. apply scaled_high. lra.
Qed.

Lemma C8_envelope_ceiling_witness :
  fst (computeRms (mkAnalyser 1024 0.6 [0.1]) [0]) = 1.
Proof.
  assert (Hne : [0] <> @nil R) by discriminate.
  apply (proj1 (C8_envelope_ceiling (mkAnalyser 1024 0.6 [0.1]) [0] Hne)).
  rewrite getFloatTimeDomainData_fill by reflexivity. cbn [timeDomainData].
  rewrite rmsOf_single by lra. lra.
Defined.

(** The quoted inputs on doubles: an RMS of 0.0105 gives a positive
    envelope, an RMS of 0.01 gives 0, an RMS of 0.1 and one of 0.01 + 1/12
    give 1; a shoulder distance of 200 gives a head radius of 70; the idle
    mouth at 0.12 is 6 high; the tracked mouth at radius 70 without audio
    (0.15) is higher than at envelope 0. *)
Lemma binary64_scenarios : Binary64.scenarios = true.
Proof. vm_compute. reflexivity. Qed.

(** ** The compositor: the three shapes of a frame *)

Lemma lm_at_nonempty (lm : Landmarks) (i : nat) (p : Landmark) :
  lm_at lm i = Some p -> hasLandmarks (Some lm) = Some lm.
Proof.
  destruct lm as [|q l]; [|reflexivity].
  unfold lm_at. destruct i; discriminate.
Qed.

Lemma hasLandmarks_cons (lm : Landmarks) :
  lm <> @nil (option Landmark) -> hasLandmarks (Some lm) = Some lm.
Proof. destruct lm; [congruence|reflexivity]. Qed.

Lemma drawFrame_tracked canvas lm ls rs analyser buf video :
  lm_at lm LM.LEFT_SHOULDER = Some ls ->
  lm_at lm LM.RIGHT_SHOULDER = Some rs ->
  drawFrame canvas (Some lm) analyser buf video =
  (drawBackground canvas
     ++ (drawSkeleton canvas lm
           ++ drawTrackedFace canvas ls rs (fst (mouthOpenOr 0.15 analyser buf)))
     ++ drawPreview canvas video,
   snd (mouthOpenOr 0.15 analyser buf)).
Proof.
  intros Hl Hr. unfold drawFrame.
  rewrite (lm_at_nonempty _ _ _ Hl), Hl, Hr.
  destruct (mouthOpenOr 0.15 analyser buf); reflexivity.
Qed.

Lemma drawFrame_no_shoulders canvas (lm : Landmarks) analyser buf video :
  lm <> [] ->
  lm_at lm LM.LEFT_SHOULDER = None \/ lm_at lm LM.RIGHT_SHOULDER = None ->
  drawFrame canvas (Some lm) analyser buf video =
  (drawBackground canvas ++ drawSkeleton canvas lm ++ drawPreview canvas video, buf).
Proof.
  intros Hne H. unfold drawFrame. rewrite (hasLandmarks_cons _ Hne).
  destruct H as [H|H]; rewrite H; [|destruct (lm_at lm LM.LEFT_SHOULDER)]; reflexivity.
Qed.

Lemma drawFrame_idle canvas lm analyser buf video :
  hasLandmarks lm = None ->
  drawFrame canvas lm analyser buf video =
  (drawBackground canvas
     ++ drawIdleFace canvas (fst (mouthOpenOr 0.12 analyser buf))
     ++ drawPreview canvas video,
   snd (mouthOpenOr 0.12 analyser buf)).
Proof.
  intro H. unfold drawFrame. rewrite H.
  destruct (mouthOpenOr 0.12 analyser buf); reflexivity.
Qed.

Lemma arcRadii_app (l1 l2 : list DrawCmd) :
  arcRadii (l1 ++ l2) = arcRadii l1 ++ arcRadii l2.
Proof. apply flat_map_app. Qed.

Lemma mouthHeights_app (l1 l2 : list DrawCmd) :
  mouthHeights (l1 ++ l2) = mouthHeights l1 ++ mouthHeights l2.
Proof. apply flat_map_app. Qed.

Lemma skeletonSegments_shapes canvas lm :
  arcRadii (skeletonSegments canvas lm) = []
  /\ mouthHeights (skeletonSegments canvas lm) = [].
Proof.
  unfold skeletonSegments. induction SKELETON_CONNECTIONS as [|[a b] l [IH1 IH2]].
  - split; reflexivity.
  - cbn [flat_map]. rewrite arcRadii_app, mouthHeights_app, IH1, IH2.
    destruct (lm_at lm a), (lm_at lm b); split; reflexivity.
Qed.

Lemma drawSkeleton_shapes canvas lm :
  arcRadii (drawSkeleton canvas lm) = []
  /\ mouthHeights (drawSkeleton canvas lm) = [].
Proof.
  unfold drawSkeleton.
  rewrite !arcRadii_app, !mouthHeights_app.
  destruct (skeletonSegments_shapes canvas lm) as [-> ->]. split; reflexivity.
Qed.

Lemma drawPreview_shapes canvas video :
  arcRadii (drawPreview canvas video) = []
  /\ mouthHeights (drawPreview canvas video) = []
  /\ forallb offPath (drawPreview canvas video) = true.
Proof.
  unfold drawPreview. destruct video as [v|]; [|repeat split].
  destruct (2 <=? readyState v)%nat; repeat split.
Qed.

Lemma tracked_frame_shapes canvas lm ls rs analyser buf video :
  lm_at lm LM.LEFT_SHOULDER = Some ls ->
  lm_at lm LM.RIGHT_SHOULDER = Some rs ->
  let frame := fst (drawFrame canvas (Some lm) analyser buf video) in
  let r := headRadius canvas ls rs in
  let envelope := fst (mouthOpenOr 0.15 analyser buf) in
  arcRadii frame = [r; Rmax 3 (r * 0.08); Rmax 3 (r * 0.08)]
  /\ mouthHeights frame = [Rmax (r * 0.08) (r * envelope * 0.6)].
Proof.
  intros Hl Hr. cbv zeta. rewrite (drawFrame_tracked _ _ _ _ _ _ _ Hl Hr). cbn [fst].
  rewrite !arcRadii_app, !mouthHeights_app.
  destruct (drawSkeleton_shapes canvas lm) as [-> ->].
  destruct (drawPreview_shapes canvas video) as (-> & -> & _).
  split; reflexivity.
Qed.

Lemma idle_frame_shapes canvas lm analyser buf video :
  hasLandmarks lm = None ->
  let frame := fst (drawFrame canvas lm analyser buf video) in
  let envelope := fst (mouthOpenOr 0.12 analyser buf) in
  arcRadii frame = [60; 6; 6]
  /\ mouthHeights frame = [Rmax 6 (envelope * 30)].
Proof.
  intros H. cbv zeta. rewrite (drawFrame_idle _ _ _ _ _ H). cbn [fst].
  rewrite !arcRadii_app, !mouthHeights_app.
  destruct (drawPreview_shapes canvas video) as (-> & -> & _).
  split; reflexivity.
Qed.

Lemma clamp_max_min (v lo hi : R) :
  lo <= hi -> Rmax lo (Rmin hi v) = clamp v lo hi.
Proof.
  intro H. unfold clamp, Rmax, Rmin.
  destruct (Rlt_dec v lo), (Rlt_dec hi v), (Rle_dec hi v);
    destruct (Rle_dec lo _); lra.
Qed.

Lemma Math_hypot_zero : Math_hypot 0 0 = 0.
Proof.
  unfold Math_hypot. replace (0 * 0 + 0 * 0) with 0 by ring. apply sqrt_0.
Qed.

Lemma Math_hypot_horizontal (a : R) : 0 <= a -> Math_hypot a 0 = a.
Proof.
  intro H. unfold Math_hypot.
  replace (a * a + 0 * 0) with (Rsqr a) by (unfold Rsqr; ring).
  apply sqrt_Rsqr. exact H.
Qed.

(** ** The compositor: head and mouth *)

Lemma sample_shoulderDist :
  shoulderDist sampleCanvas (mkLandmark 0.5 0.5) (mkLandmark 0.34375 0.5) = 200.
Proof.
  unfold shoulderDist, sampleCanvas, canvasSizeWidth, canvasSizeHeight. cbn [x y width height].
  replace ((0.5 - 0.34375) * 1280) with 200 by lra.
  replace ((0.5 - 0.5) * 720) with 0 by lra.
  apply Math_hypot_horizontal. lra.
Qed.

(** C6: the head is drawn with radius shoulder distance x 0.35 clamped to
    [24, 80]: 24 for coincident shoulders, 80 for shoulders far apart, 70 for
    a shoulder distance of 200 pixels. *)
Theorem C6_head_radius canvas lm ls rs analyser buf video :
  lm_at lm LM.LEFT_SHOULDER = Some ls ->
  lm_at lm LM.RIGHT_SHOULDER = Some rs ->
  let d := shoulderDist canvas ls rs in
  let head := nth_error (arcRadii (fst (drawFrame canvas (Some lm) analyser buf video))) 0 in
  head = Some (clamp (d * 0.35) 24 80)
  /\ 24 <= clamp (d * 0.35) 24 80 <= 80
  /\ (x ls = x rs -> y ls = y rs -> head = Some 24)
  /\ (80 / 0.35 <= d -> head = Some 80)
  /\ (d = 200 -> head = Some 70).
Proof.
  intros Hl Hr d head.
  assert (Hhead : head = Some (clamp (d * 0.35) 24 80)).
  { unfold head.
    destruct (tracked_frame_shapes canvas lm ls rs analyser buf video Hl Hr) as [-> _].
    cbn [nth_error]. unfold headRadius. fold d. rewrite clamp_max_min by lra. reflexivity. }
  split; [exact Hhead|]. rewrite Hhead.
  assert (Hclamp : forall v, 24 <= clamp v 24 80 <= 80).
  { intro v. unfold clamp. destruct (Rlt_dec v 24); [lra|]. destruct (Rlt_dec 80 v); lra. }
  split; [apply Hclamp|]. split; [|split].
  - intros Hx Hy. f_equal. unfold d, shoulderDist. rewrite Hx, Hy.
    replace ((x rs - x rs) * width canvas) with 0 by ring.
    replace ((y rs - y rs) * height canvas) with 0 by ring.
    rewrite Math_hypot_zero. unfold clamp.
    destruct (Rlt_dec (0 * 0.35) 24); [reflexivity|lra].
  - intro H. f_equal. unfold clamp.
    destruct (Rlt_dec (d * 0.35) 24); [lra|]. destruct (Rlt_dec 80 (d * 0.35)); lra.
  - intro H. f_equal. rewrite H. unfold clamp.
    destruct (Rlt_dec (200 * 0.35) 24); [lra|]. destruct (Rlt_dec 80 (200 * 0.35)); lra.
Qed.

Lemma C6_head_radius_witness :
  nth_error (arcRadii (fst (drawFrame sampleCanvas (Some sampleShoulders) None None None))) 0
  = Some 70.
Proof.
  apply (C6_head_radius sampleCanvas sampleShoulders
           (mkLandmark 0.5 0.5) (mkLandmark 0.34375 0.5) None None None
           eq_refl eq_refl).
  apply sample_shoulderDist.
Defined.

(** C7: with both shoulders found the mouth is drawn with height
    max(0.08 x headRadius, envelope x headRadius x 0.6); in the idle-face
    branch an envelope of 0.12 gives height max(6, 0.12 * 30) = 6. *)
Theorem C7_mouth_height canvas lm analyser buf video :
  let frame := fst (drawFrame canvas lm analyser buf video) in
  (forall l ls rs,
      lm = Some l ->
      lm_at l LM.LEFT_SHOULDER = Some ls ->
      lm_at l LM.RIGHT_SHOULDER = Some rs ->
      let r := headRadius canvas ls rs in
      let envelope := fst (mouthOpenOr 0.15 analyser buf) in
      mouthHeights frame = [Rmax (0.08 * r) (envelope * r * 0.6)])
  /\ (hasLandmarks lm = None ->
      fst (mouthOpenOr 0.12 analyser buf) = 0.12 ->
      mouthHeights frame = [Rmax 6 (0.12 * 30)] /\ Rmax 6 (0.12 * 30) = 6).
Proof.
  intro frame. split.
  - intros l ls rs -> Hl Hr r envelope. unfold frame.
    destruct (tracked_frame_shapes canvas l ls rs analyser buf video Hl Hr) as [_ ->].
    fold r envelope. do 2 f_equal; ring.
  - intros Hidle Henv. unfold frame.
    destruct (idle_frame_shapes canvas lm analyser buf video Hidle) as [_ ->].
    rewrite Henv. split; [reflexivity|]. apply Rmax_left. lra.
Qed.

Lemma C7_mouth_height_witness :
  mouthHeights (fst (drawFrame sampleCanvas (Some sampleShoulders) None None None))
  = [Rmax (0.08 * 70) (0.15 * 70 * 0.6)]
  /\ mouthHeights (fst (drawFrame sampleCanvas None None None None)) = [Rmax 6 (0.12 * 30)].
Proof.
  split.
  - pose proof (proj1 (C7_mouth_height sampleCanvas (Some sampleShoulders) None None None)
                  sampleShoulders (mkLandmark 0.5 0.5) (mkLandmark 0.34375 0.5)
                  eq_refl eq_refl eq_refl) as H.
    cbv zeta in H. rewrite H. unfold headRadius. rewrite sample_shoulderDist.
    replace (Rmax 24 (Rmin 80 (200 * 0.35))) with 70; [reflexivity|].
    rewrite Rmin_right by lra. rewrite Rmax_right by lra. lra.
  - apply (proj2 (C7_mouth_height sampleCanvas None None None None) eq_refl eq_refl).
Defined.

(** C5, as stated, fails: without an audio source the envelope that sizes the
    mouth is the idle default 0.15, not 0, and the mouth of the tracked face
    is taller than the one an envelope of 0 gives. *)
Lemma C5_silent_envelope_counterexample :
  let frame := fst (drawFrame sampleCanvas (Some sampleShoulders) None None None) in
  let r := headRadius sampleCanvas (mkLandmark 0.5 0.5) (mkLandmark 0.34375 0.5) in
  fst (mouthOpenOr 0.15 None None) <> 0
  /\ mouthHeights frame <> [Rmax (0.08 * r) (0 * r * 0.6)].
Proof.
  cbv zeta. split.
  - cbn [mouthOpenOr fst]. lra.
  - destruct (tracked_frame_shapes sampleCanvas sampleShoulders
                (mkLandmark 0.5 0.5) (mkLandmark 0.34375 0.5) None None None
                eq_refl eq_refl) as [_ ->].
    cbn [mouthOpenOr fst]. unfold headRadius. rewrite sample_shoulderDist.
    replace (Rmax 24 (Rmin 80 (200 * 0.35))) with 70
      by (rewrite Rmin_right by lra; rewrite Rmax_right by lra; lra).
    rewrite (Rmax_right (70 * 0.08)) by lra.
    rewrite (Rmax_left (0.08 * 70)) by lra.
    intro H. injection H as H. lra.
Qed.

(** C5 (amended): when the analysis node or the sample buffer is missing, the
    envelope that sizes the mouth is the idle default (0.15 on the tracked
    face, 0.12 on the idle face); when both are there it is the value
    [computeRms] returns. *)
Theorem C5_envelope_source canvas lm analyser buf video :
  let frame := fst (drawFrame canvas lm analyser buf video) in
  (analyser = None \/ buf = None ->
   (forall l ls rs,
       lm = Some l ->
       lm_at l LM.LEFT_SHOULDER = Some ls ->
       lm_at l LM.RIGHT_SHOULDER = Some rs ->
       let r := headRadius canvas ls rs in
       mouthHeights frame = [Rmax (r * 0.08) (r * 0.15 * 0.6)])
   /\ (hasLandmarks lm = None -> mouthHeights frame = [Rmax 6 (0.12 * 30)]))
  /\ (forall a b,
         analyser = Some a -> buf = Some b ->
         (forall l ls rs,
             lm = Some l ->
             lm_at l LM.LEFT_SHOULDER = Some ls ->
             lm_at l LM.RIGHT_SHOULDER = Some rs ->
             let r := headRadius canvas ls rs in
             mouthHeights frame = [Rmax (r * 0.08) (r * fst (computeRms a b) * 0.6)])
         /\ (hasLandmarks lm = None ->
             mouthHeights frame = [Rmax 6 (fst (computeRms a b) * 30)])).
Proof.
  intro frame.
  assert (Hnone : forall idle, analyser = None \/ buf = None ->
                               fst (mouthOpenOr idle analyser buf) = idle).
  { intros idle [-> | ->]; [reflexivity|]. destruct analyser; reflexivity. }
  assert (Hsome : forall idle a b, analyser = Some a -> buf = Some b ->
                                   fst (mouthOpenOr idle analyser buf) = fst (computeRms a b)).
  { intros idle a b -> ->. unfold mouthOpenOr. destruct (computeRms a b); reflexivity. }
  split.
  - intro H. split.
    + intros l ls rs -> Hl Hr r. unfold frame.
      destruct (tracked_frame_shapes canvas l ls rs analyser buf video Hl Hr) as [_ ->].
      rewrite (Hnone _ H). reflexivity.
    + intro Hidle. unfold frame.
      destruct (idle_frame_shapes canvas lm analyser buf video Hidle) as [_ ->].
      rewrite (Hnone _ H). reflexivity.
  - intros a b Ha Hb. split.
    + intros l ls rs -> Hl Hr r. unfold frame.
      destruct (tracked_frame_shapes canvas l ls rs analyser buf video Hl Hr) as [_ ->].
      rewrite (Hsome _ a b Ha Hb). reflexivity.
    + intro Hidle. unfold frame.
      destruct (idle_frame_shapes canvas lm analyser buf video Hidle) as [_ ->].
      rewrite (Hsome _ a b Ha Hb). reflexivity.
Qed.

Lemma C5_envelope_source_witness :
  mouthHeights (fst (drawFrame sampleCanvas None None None None)) = [Rmax 6 (0.12 * 30)]
  /\ mouthHeights (fst (drawFrame sampleCanvas None (Some (mkAnalyser 1024 0.6 [0.1]))
                          (Some [0]) None))
     = [Rmax 6 (fst (computeRms (mkAnalyser 1024 0.6 [0.1]) [0]) * 30)].
Proof.
  split.
  - apply (proj2 (proj1 (C5_envelope_source sampleCanvas None None None None)
                    (or_introl eq_refl)) eq_refl).
  - apply (proj2 (proj2 (C5_envelope_source sampleCanvas None
                           (Some (mkAnalyser 1024 0.6 [0.1])) (Some [0]) None)
                    _ _ eq_refl eq_refl) eq_refl).
Defined.

(** ** The compositor: skeleton *)

Lemma segments_offPath (l1 l2 : list DrawCmd) :
  forallb offPath l1 = true -> segments (l1 ++ l2) = segments l2.
Proof.
  induction l1 as [|c l1 IH]; [reflexivity|].
  cbn [forallb]. intro H. apply andb_prop in H. destruct H as [Hc Hl].
  destruct c; try discriminate Hc; cbn [app segments]; apply IH; exact Hl.
Qed.

Lemma segments_flat_map canvas lm (connections : list (nat * nat)) (tail : list DrawCmd) :
  segments
    (flat_map
       (fun ab : nat * nat =>
          let (a, b) := ab in
          match lm_at lm a, lm_at lm b with
          | Some p1, Some p2 =>
              [ MoveTo (x p1 * width canvas) (y p1 * height canvas);
                LineTo (x p2 * width canvas) (y p2 * height canvas) ]
          | _, _ => []
          end)
       connections ++ tail)
  = expectedSegments canvas lm connections ++ segments tail.
Proof.
  induction connections as [|[a b] rest IH]; [reflexivity|].
  cbn [flat_map expectedSegments].
  destruct (lm_at lm a) as [p1|]; [destruct (lm_at lm b) as [p2|]|];
    cbn [app segments]; rewrite IH; reflexivity.
Qed.

Lemma segments_drawSkeleton canvas lm (tail : list DrawCmd) :
  forallb offPath tail = true ->
  segments (drawSkeleton canvas lm ++ tail)
  = expectedSegments canvas lm SKELETON_CONNECTIONS.
Proof.
  intro H. unfold drawSkeleton, skeletonSegments.
  rewrite <- !app_assoc.
  rewrite segments_offPath by reflexivity.
  rewrite segments_flat_map.
  replace (([Stroke; GlobalAlpha 1] ++ tail)) with (([Stroke; GlobalAlpha 1] ++ tail) ++ [])
    by apply app_nil_r.
  rewrite segments_offPath; [apply app_nil_r|].
  rewrite forallb_app, H. reflexivity.
Qed.

Lemma expectedSegments_empty canvas (connections : list (nat * nat)) :
  expectedSegments canvas [] connections = [].
Proof.
  induction connections as [|[a b] rest IH]; [reflexivity|].
  cbn [expectedSegments]. unfold lm_at. destruct a; exact IH.
Qed.

Lemma In_expectedSegments canvas lm (connections : list (nat * nat)) seg :
  In seg (expectedSegments canvas lm connections) <->
  exists a b p1 p2,
    In (a, b) connections
    /\ lm_at lm a = Some p1 /\ lm_at lm b = Some p2
    /\ seg = ((x p1 * width canvas, y p1 * height canvas),
              (x p2 * width canvas, y p2 * height canvas)).
Proof.
  induction connections as [|[a b] rest IH].
  - split; [intros []|]. intros (a & b & p1 & p2 & [] & _).
  - cbn [expectedSegments]. split.
    + intro H.
      destruct (lm_at lm a) as [p1|] eqn:Ha; [destruct (lm_at lm b) as [p2|] eqn:Hb|].
      * destruct H as [H|H].
        -- exists a, b, p1, p2. repeat split; [left; reflexivity|assumption..|].
           symmetry; exact H.
        -- apply IH in H. destruct H as (a' & b' & q1 & q2 & Hin & H).
           exists a', b', q1, q2. split; [right; exact Hin|exact H].
      * apply IH in H. destruct H as (a' & b' & q1 & q2 & Hin & H).
        exists a', b', q1, q2. split; [right; exact Hin|exact H].
      * apply IH in H. destruct H as (a' & b' & q1 & q2 & Hin & H).
        exists a', b', q1, q2. split; [right; exact Hin|exact H].
    + intros (a' & b' & q1 & q2 & [Heq|Hin] & Ha & Hb & Hseg).
      * injection Heq as -> ->. rewrite Ha, Hb. left. symmetry; exact Hseg.
      * assert (Hrest : In seg (expectedSegments canvas lm rest)).
        { apply IH. exists a', b', q1, q2. repeat split; assumption. }
        destruct (lm_at lm a); [destruct (lm_at lm b)|]; try exact Hrest.
        right; exact Hrest.
Qed.

Lemma face_offPath canvas ls rs mouthOpen video :
  forallb offPath (drawTrackedFace canvas ls rs mouthOpen ++ drawPreview canvas video) = true
  /\ forallb offPath (drawIdleFace canvas mouthOpen ++ drawPreview canvas video) = true.
Proof.
  rewrite !forallb_app.
  destruct (drawPreview_shapes canvas video) as (_ & _ & ->).
  split; reflexivity.
Qed.

(** C9: for every landmark set, the segments of the frame are those of the
    skeleton connections whose two keypoints exist, one each, and their
    endpoints are the keypoints' normalized coordinates times the surface
    width and height. *)
Theorem C9_skeleton_segments canvas (lm : Landmarks) analyser buf video :
  let frame := fst (drawFrame canvas (Some lm) analyser buf video) in
  segments frame = expectedSegments canvas lm SKELETON_CONNECTIONS
  /\ forall seg,
      In seg (segments frame) <->
      exists a b p1 p2,
        In (a, b) SKELETON_CONNECTIONS
        /\ lm_at lm a = Some p1 /\ lm_at lm b = Some p2
        /\ seg = ((x p1 * width canvas, y p1 * height canvas),
                  (x p2 * width canvas, y p2 * height canvas)).
Proof.
  intro frame.
  assert (H : segments frame = expectedSegments canvas lm SKELETON_CONNECTIONS).
  { unfold frame. destruct lm as [|p l].
    - rewrite drawFrame_idle by reflexivity. cbn [fst].
      rewrite expectedSegments_empty.
      replace (drawBackground canvas ++
               drawIdleFace canvas (fst (mouthOpenOr 0.12 analyser buf)) ++
               drawPreview canvas video)
        with ((drawBackground canvas ++
               drawIdleFace canvas (fst (mouthOpenOr 0.12 analyser buf)) ++
               drawPreview canvas video) ++ []) by apply app_nil_r.
      apply segments_offPath. rewrite forallb_app.
      rewrite (proj2 (face_offPath canvas (mkLandmark 0 0) (mkLandmark 0 0)
                        (fst (mouthOpenOr 0.12 analyser buf)) video)).
      reflexivity.
    - set (lm := p :: l).
      destruct (lm_at lm LM.LEFT_SHOULDER) as [ls|] eqn:Hl;
        [destruct (lm_at lm LM.RIGHT_SHOULDER) as [rs|] eqn:Hr|].
      + rewrite (drawFrame_tracked _ _ _ _ _ _ _ Hl Hr). cbn [fst].
        rewrite segments_offPath by reflexivity. rewrite <- app_assoc.
        apply segments_drawSkeleton. apply face_offPath.
      + rewrite drawFrame_no_shoulders by (try discriminate; right; exact Hr). cbn [fst].
        rewrite segments_offPath by reflexivity.
        apply segments_drawSkeleton. apply drawPreview_shapes.
      + rewrite drawFrame_no_shoulders by (try discriminate; left; exact Hl). cbn [fst].
        rewrite segments_offPath by reflexivity.
        apply segments_drawSkeleton. apply drawPreview_shapes. }
  split; [exact H|]. intro seg. rewrite H. apply In_expectedSegments.
Qed.

(** C10: when the landmark cache is non-empty and a shoulder keypoint is
    missing, the frame is the background, the skeleton and the camera
    thumbnail only: no head, no eyes, no mouth, and the audio is not read;
    the idle face (head 60, eyes 6) is drawn exactly when the landmark cache
    is absent or empty. *)
Theorem C10_missing_shoulder canvas (lm : Landmarks) analyser buf video :
  lm <> [] ->
  lm_at lm LM.LEFT_SHOULDER = None \/ lm_at lm LM.RIGHT_SHOULDER = None ->
  let frame := drawFrame canvas (Some lm) analyser buf video in
  fst frame = drawBackground canvas ++ drawSkeleton canvas lm ++ drawPreview canvas video
  /\ arcRadii (fst frame) = []
  /\ mouthHeights (fst frame) = []
  /\ snd frame = buf
  /\ forall cache,
      arcRadii (fst (drawFrame canvas cache analyser buf video)) = [60; 6; 6]
      <-> (cache = None \/ cache = Some []).
Proof.
  intros Hne Hmiss frame. unfold frame.
  rewrite (drawFrame_no_shoulders _ _ _ _ _ Hne Hmiss). cbn [fst snd].
  split; [reflexivity|].
  rewrite !arcRadii_app, !mouthHeights_app.
  destruct (drawSkeleton_shapes canvas lm) as [-> ->].
  destruct (drawPreview_shapes canvas video) as (-> & -> & _).
  repeat (split; [reflexivity|]).
  intro cache. split.
  - intro H. destruct cache as [[|p l]|]; [right; reflexivity| |left; reflexivity].
    exfalso. set (c := p :: l) in *.
    destruct (lm_at c LM.LEFT_SHOULDER) as [ls|] eqn:Hl;
      [destruct (lm_at c LM.RIGHT_SHOULDER) as [rs|] eqn:Hr|].
    + destruct (tracked_frame_shapes canvas c ls rs analyser buf video Hl Hr) as [Ha _].
      rewrite Ha in H. injection H as Hr60 Heye _. rewrite Hr60 in Heye.
      unfold Rmax in Heye. destruct (Rle_dec 3 (60 * 0.08)); lra.
    + rewrite drawFrame_no_shoulders in H by (try discriminate; right; exact Hr).
      cbn [fst] in H. rewrite !arcRadii_app in H.
      rewrite (proj1 (drawSkeleton_shapes canvas c)) in H.
      rewrite (proj1 (drawPreview_shapes canvas video)) in H. discriminate H.
    + rewrite drawFrame_no_shoulders in H by (try discriminate; left; exact Hl).
      cbn [fst] in H. rewrite !arcRadii_app in H.
      rewrite (proj1 (drawSkeleton_shapes canvas c)) in H.
      rewrite (proj1 (drawPreview_shapes canvas video)) in H. discriminate H.
  - intro H.
    apply (idle_frame_shapes canvas cache analyser buf video).
    destruct H as [-> | ->]; reflexivity.
Qed.

Lemma C10_missing_shoulder_witness :
  arcRadii (fst (drawFrame sampleCanvas (Some sampleNoShoulders)
                   (Some (mkAnalyser 1024 0.6 [0.1])) (Some [0]) None)) = []
  /\ mouthHeights (fst (drawFrame sampleCanvas (Some sampleNoShoulders)
                          (Some (mkAnalyser 1024 0.6 [0.1])) (Some [0]) None)) = [].
Proof.
  assert (Hne : sampleNoShoulders <> []) by discriminate.
  pose proof (C10_missing_shoulder sampleCanvas sampleNoShoulders
                (Some (mkAnalyser 1024 0.6 [0.1])) (Some [0]) None
                Hne (or_introl eq_refl)) as H.
  cbv zeta in H. destruct H as (_ & Ha & Hm & _). split; assumption.
Defined.

(** ** The stop branch *)

Lemma untilThrow_app env (l1 l2 : list Event) :
  untilThrow env (l1 ++ l2)
  = untilThrow env l1
    ++ match firstThrow env l1 with Some _ => [] | None => untilThrow env l2 end.
Proof.
  induction l1 as [|e l1 IH]; [reflexivity|].
  cbn [app untilThrow firstThrow]. destruct (throws env e); [reflexivity|].
  rewrite IH. reflexivity.
Qed.

Lemma firstThrow_app env (l1 l2 : list Event) :
  firstThrow env (l1 ++ l2)
  = match firstThrow env l1 with Some e => Some e | None => firstThrow env l2 end.
Proof.
  induction l1 as [|e l1 IH]; [reflexivity|].
  cbn [app firstThrow]. destruct (throws env e); [reflexivity|exact IH].
Qed.

Lemma quiet_untilThrow env (es : list Event) :
  quiet env -> untilThrow env es = es /\ firstThrow env es = None.
Proof.
  intro Hq. induction es as [|e es [IH1 IH2]]; [split; reflexivity|].
  cbn [untilThrow firstThrow]. rewrite Hq, IH1, IH2. split; reflexivity.
Qed.

Lemma extend_nil (s : State) : extend [] s = s.
Proof. destruct s. unfold extend. cbn. rewrite app_nil_r. reflexivity. Qed.

Lemma extend_extend (es1 es2 : list Event) (s : State) :
  extend es2 (extend es1 s) = extend (es1 ++ es2) s.
Proof. unfold extend. cbn. rewrite app_assoc. reflexivity. Qed.

(** The [forEach] over the tracks stops them in order, up to the first
    [stop()] that throws. *)
Lemma forEach_tracks env (stream : MediaStream) (s : State) :
  forEach stream (fun t => call env (TrackStop t)) s
  = (verdict env (map TrackStop stream),
     extend (untilThrow env (map TrackStop stream)) s).
Proof.
  revert s. induction stream as [|t stream IH]; intro s.
  - cbn. rewrite extend_nil. reflexivity.
  - cbn [forEach map untilThrow]. unfold bind, call at 1, verdict. cbn [firstThrow].
    destruct (throws env (TrackStop t)).
    + rewrite extend_nil. reflexivity.
    + rewrite IH. unfold verdict.
      change (record (TrackStop t) s) with (extend [TrackStop t] s).
      rewrite extend_extend. reflexivity.
Qed.

Section CallsRules.

Variable env : Env.
Variable post : State -> Prop.

Lemma calls_gets {A} (f : State -> A) (k : A -> M unit) es s :
  Calls env (k (f s)) es s post -> Calls env (bind (gets f) k) es s post.
Proof. intro H. exact H. Qed.

Lemma calls_ret (k : M unit) es s :
  Calls env k es s post -> Calls env (bind (ret tt) (fun _ => k)) es s post.
Proof. intro H. exact H. Qed.

Lemma calls_modify (f : State -> State) (k : M unit) es s :
  log (f s) = log s ->
  Calls env k es (f s) post -> Calls env (bind (modify f) (fun _ => k)) es s post.
Proof.
  intros Hlog (H1 & H2 & H3). unfold Calls, bind, modify.
  rewrite <- Hlog. repeat split; assumption.
Qed.

Lemma calls_call (e : Event) (k : M unit) es s :
  Calls env k es (record e s) post ->
  Calls env (bind (call env e) (fun _ => k)) (e :: es) s post.
Proof.
  intros (H1 & H2 & H3). unfold Calls, bind, call, verdict.
  cbn [untilThrow firstThrow]. destruct (throws env e).
  - cbn [fst snd]. rewrite app_nil_r. repeat split. discriminate.
  - rewrite H2. cbn [record log]. rewrite <- app_assoc.
    repeat split; assumption.
Qed.

Lemma calls_tracks (stream : MediaStream) (k : M unit) es s :
  Calls env k es (extend (map TrackStop stream) s) post ->
  Calls env (bind (forEach stream (fun t => call env (TrackStop t))) (fun _ => k))
    (map TrackStop stream ++ es) s post.
Proof.
  intros (H1 & H2 & H3). unfold Calls, bind.
  rewrite forEach_tracks, untilThrow_app, firstThrow_app. unfold verdict.
  rewrite firstThrow_app.
  destruct (firstThrow env (map TrackStop stream)) as [e|] eqn:Hft.
  - cbn [fst snd extend log]. rewrite app_nil_r. repeat split. discriminate.
  - assert (Hall : untilThrow env (map TrackStop stream) = map TrackStop stream).
    { clear - Hft. induction (map TrackStop stream) as [|e l IH]; [reflexivity|].
      cbn [untilThrow firstThrow] in *. destruct (throws env e); [discriminate|].
      rewrite IH by exact Hft. reflexivity. }
    rewrite Hall. rewrite H2. cbn [extend log]. rewrite <- app_assoc.
    repeat split; assumption.
Qed.

Lemma calls_bind_assoc (m1 m2 k : M unit) es s :
  Calls env (bind m1 (fun _ => bind m2 (fun _ => k))) es s post ->
  Calls env (bind (bind m1 (fun _ => m2)) (fun _ => k)) es s post.
Proof.
  unfold Calls, bind. destruct (m1 s) as [[[]|e] s1]; intro H; exact H.
Qed.

Lemma calls_done (f : State -> State) s :
  log (f s) = log s -> post (f s) -> Calls env (modify f) [] s post.
Proof.
  intros Hlog Hpost. unfold Calls, modify, verdict. cbn.
  rewrite app_nil_r. split; [reflexivity|]. split; [exact Hlog|].
  intros _. exact Hpost.
Qed.

End CallsRules.

Arguments Calls : simpl never.

Ltac state_norm :=
  cbv [set_videoRef set_cameraRef set_poseRef set_landmarksRef set_audioContextRef
       set_analyserRef set_audioBufferRef set_rafRef set_frameCounter paint record extend
       canvasRef videoRef cameraRef poseRef landmarksRef audioContextRef analyserRef
       audioBufferRef rafRef frameCounter surface log].

Ltac calls_step :=
  lazymatch goal with
  | |- Calls ?env (bind (gets ?f) ?k) ?es ?s ?post =>
      refine (calls_gets env post f k es s _)
  | |- Calls ?env (bind (ret tt) (fun _ => ?k)) ?es ?s ?post =>
      refine (calls_ret env post k es s _)
  | |- Calls ?env (bind (call _ ?e) (fun _ => ?k)) (_ :: ?es) ?s ?post =>
      refine (calls_call env post e k es s _)
  | |- Calls ?env (bind (bind (forEach ?stream ?f) (fun _ => ?m)) (fun _ => ?k))
         (_ ++ ?es) ?s ?post =>
      refine (calls_bind_assoc env post (forEach stream f) m k _ s _);
      refine (calls_tracks env post stream _ es s _)
  | |- Calls ?env (bind (modify ?f) (fun _ => ?k)) ?es ?s ?post =>
      refine (calls_modify env post f k es s eq_refl _)
  end;
  cbn -[forEach map app bind gets modify ret call].

(** [stop] issues the release calls that are due, in order, up to the first
    one that throws; when none throws it leaves [released]. *)
Lemma stop_calls env (s : State) :
  Calls env (stop env) (releaseSteps s) s (fun s' => s' = released s).
Proof.
  destruct s as [canvas video camera pose lm ac analyser buf raf n drawn history].
  unfold stop, released, releaseSteps.
  destruct raf as [[|h]|], camera, pose, video as [[[stream|] ready]|], analyser, ac;
    cbn -[forEach map bind gets modify ret call];
    repeat calls_step;
    lazymatch goal with
    | |- Calls ?env (modify ?f) [] ?s ?post => refine (calls_done env post f s eq_refl _)
    end;
    state_norm; rewrite <- ?app_assoc, ?app_nil_r; reflexivity.
Qed.

Lemma stop_quiet env (s : State) :
  quiet env -> stop env s = (Ok tt, released s).
Proof.
  intro Hq. destruct (stop_calls env s) as (H1 & _ & H3).
  destruct (quiet_untilThrow env (releaseSteps s) Hq) as [_ Hnone].
  unfold verdict in H1. rewrite Hnone in H1. specialize (H3 Hnone).
  destruct (stop env s) as [o s']. cbn [fst snd] in *. subst. reflexivity.
Qed.

Lemma released_twice (s : State) : released (released s) = released s.
Proof.
  destruct s as [canvas [[[stream|] ready]|] camera pose lm ac analyser buf raf n drawn history];
    unfold released; cbn; rewrite app_nil_r; reflexivity.
Qed.

(** A second [stop] finds nothing to release, whatever the platform does. *)
Lemma stop_released env (s : State) :
  stop env (released s) = (Ok tt, released s).
Proof.
  destruct (stop_calls env (released s)) as (H1 & _ & H3).
  assert (Hnil : releaseSteps (released s) = []).
  { destruct s as [canvas [[[stream|] ready]|] camera pose lm ac analyser buf raf n drawn history];
      reflexivity. }
  rewrite Hnil in *. specialize (H3 eq_refl). rewrite released_twice in H3.
  destruct (stop env (released s)) as [o s']. cbn [fst snd] in *. subst. reflexivity.
Qed.

(** ** Resources along a history *)

Lemma held_app (l1 l2 : list Event) :
  held (l1 ++ l2) = fold_left perform l2 (held l1).
Proof. unfold held. apply fold_left_app. Qed.

Lemma dropId_incl (t : nat) (l st : list nat) :
  incl l (t :: st) -> incl (dropId t l) st.
Proof.
  intros H a Ha. unfold dropId in Ha. apply filter_In in Ha. destruct Ha as [Hin Hneq].
  destruct (H a Hin) as [Heq|Hst]; [|exact Hst].
  subst a. rewrite Nat.eqb_refl in Hneq. discriminate.
Qed.

Lemma drop_all (st l : list nat) :
  incl l st -> fold_left (fun acc t => dropId t acc) st l = [].
Proof.
  revert l. induction st as [|t st IH]; intros l H.
  - destruct l as [|a l]; [reflexivity|]. destruct (H a (or_introl eq_refl)).
  - cbn [fold_left]. apply IH. apply dropId_incl. exact H.
Qed.

Lemma perform_tracks (stream : MediaStream) (r : Resources) :
  fold_left perform (map TrackStop stream) r
  = mkResources (fold_left (fun acc t => dropId t acc) stream (activeTracks r))
      (audioContexts r) (analysers r) (detectors r) (framePumps r) (pendingFrames r).
Proof.
  revert r. induction stream as [|t stream IH]; intro r.
  - destruct r; reflexivity.
  - cbn [map fold_left]. rewrite IH. reflexivity.
Qed.

Lemma dropId_self (h : nat) : dropId h [h] = [].
Proof. unfold dropId. cbn. rewrite Nat.eqb_refl. reflexivity. Qed.

(** Releasing a running session leaves nothing held. *)
Lemma held_releases env (h : nat) :
  fold_left perform (releases env h) (mkResources (userMedia env) 1 1 1 1 [h])
  = noResources.
Proof.
  unfold releases. rewrite !fold_left_app. cbn [fold_left perform].
  rewrite perform_tracks. cbn -[dropId].
  rewrite dropId_self, drop_all by apply incl_refl. reflexivity.
Qed.

Lemma NoDup_releases env (h : nat) :
  NoDup (userMedia env) -> NoDup (releases env h).
Proof.
  intro Hnd. unfold releases. cbn [app].
  assert (Htracks : forall e, In e (map TrackStop (userMedia env)
                                      ++ [AnalyserDisconnect; AudioContextClose]) ->
                              (exists t, e = TrackStop t)
                              \/ e = AnalyserDisconnect \/ e = AudioContextClose).
  { intros e He. apply in_app_or in He. destruct He as [He|[He|[He|[]]]].
    - apply in_map_iff in He. destruct He as (t & <- & _). left. exists t. reflexivity.
    - right. left. symmetry. exact He.
    - right. right. symmetry. exact He. }
  repeat constructor.
  - intros [H|[H|H]]; try discriminate H.
    apply Htracks in H. destruct H as [[t H]|[H|H]]; discriminate H.
  - intros [H|H]; try discriminate H.
    apply Htracks in H. destruct H as [[t H]|[H|H]]; discriminate H.
  - intro H. apply Htracks in H. destruct H as [[t H]|[H|H]]; discriminate H.
  - clear Htracks. induction Hnd as [|t l Hnotin Hnd IH].
    + cbn. repeat constructor; cbn; intuition discriminate.
    + cbn [map app]. constructor; [|exact IH].
      intro H. apply in_app_or in H. destruct H as [H|[H|[H|[]]]]; try discriminate H.
      apply in_map_iff in H. destruct H as (t' & Heq & Hin).
      injection Heq as ->. contradiction.
Qed.

(** ** The start branch *)

Lemma drawFrame_buffer canvas lm analyser buf video :
  buf <> None -> snd (drawFrame canvas lm analyser buf video) <> None.
Proof.
  intro Hbuf.
  assert (Hm : forall idle, snd (mouthOpenOr idle analyser buf) <> None).
  { intro idle. unfold mouthOpenOr. destruct analyser as [a|]; [|exact Hbuf].
    destruct buf as [b|]; [|exact Hbuf]. destruct (computeRms a b). discriminate. }
  unfold drawFrame. destruct (hasLandmarks lm) as [l|].
  - destruct (lm_at l LM.LEFT_SHOULDER); [destruct (lm_at l LM.RIGHT_SHOULDER)|];
      try exact Hbuf.
    specialize (Hm 0.15). destruct (mouthOpenOr 0.15 analyser buf). exact Hm.
  - specialize (Hm 0.12). destruct (mouthOpenOr 0.12 analyser buf). exact Hm.
Qed.

(** One frame of [render] when canvas and context are there and the platform
    accepts the request for the next frame. *)
Lemma render_quiet env (s : State) canvas :
  quiet env -> canvasRef s = Some canvas -> context2d canvas = true ->
  render env s
  = (Ok tt,
     let frame := drawFrame canvas (landmarksRef s) (analyserRef s) (audioBufferRef s)
                    (videoRef s) in
     mkState (canvasRef s) (videoRef s) (cameraRef s) (poseRef s) (landmarksRef s)
       (audioContextRef s) (analyserRef s) (snd frame) (Some (S (frameCounter s)))
       (S (frameCounter s)) (surface s ++ fst frame)
       (log s ++ [RequestAnimationFrame (S (frameCounter s))])).
Proof.
  intros Hq Hc Hctx.
  destruct s as [c v camera pose lm ac analyser buf raf n drawn history].
  cbn [canvasRef] in Hc. subst c.
  unfold render, requestAnimationFrame, bind, gets, modify, ret, call.
  state_norm. rewrite Hctx. cbn [negb]. rewrite Hq. reflexivity.
Qed.

Lemma start_quiet env (s : State) canvas video :
  quiet env -> cancelled env = false ->
  canvasRef s = Some canvas -> context2d canvas = true ->
  videoRef s = Some video ->
  let s1 := snd (start env s) in
  fst (start env s) = Ok tt
  /\ canvasRef s1 = Some canvas
  /\ videoRef s1 = Some (mkVideo (Some (userMedia env)) (readyState video))
  /\ cameraRef s1 = Some (mkCamera canvasSizeWidth canvasSizeHeight)
  /\ poseRef s1 = Some (mkPose 1 true 0.5 0.5)
  /\ landmarksRef s1 = landmarksRef s
  /\ audioContextRef s1 = Some mkAudioContext
  /\ analyserRef s1 = Some (mkAnalyser 1024 0.6 (microphone env))
  /\ audioBufferRef s1 <> None
  /\ rafRef s1 = Some (S (frameCounter s))
  /\ log s1 = log s ++ startEvents env (frameCounter s).
Proof.
  intros Hq Hcancel Hc Hctx Hv.
  destruct s as [c v camera pose lm ac analyser buf raf n drawn history].
  cbn [canvasRef videoRef] in Hc, Hv. subst c v.
  unfold start, try_catch, acquire, bind, gets, modify, ret, call.
  rewrite Hcancel. state_norm. rewrite !Hq.
  erewrite render_quiet by (try exact Hq; try exact Hctx; reflexivity).
  cbv zeta. state_norm. cbn [fst snd fftSize].
  repeat split.
  - apply drawFrame_buffer. discriminate.
  - unfold startEvents. rewrite <- !app_assoc. reflexivity.
Qed.

(** ** The running session *)

Lemma start_running env (s : State) canvas video :
  quiet env -> cancelled env = false -> Stopped s ->
  canvasRef s = Some canvas -> context2d canvas = true -> videoRef s = Some video ->
  fst (start env s) = Ok tt /\ Running env (snd (start env s)) (frameCounter s).
Proof.
  intros Hq Hcancel Hstopped Hc Hctx Hv.
  destruct (start_quiet env s canvas video Hq Hcancel Hc Hctx Hv)
    as (Hok & Hc1 & Hv1 & Hcam & Hpose & _ & Hac & Han & Hbuf & Hraf & Hlog).
  split; [exact Hok|]. unfold Running, videoSource.
  rewrite Hc1, Hv1, Hcam, Hpose, Hac, Han, Hraf, Hlog.
  repeat split; try discriminate; try exact Hbuf.
  - exists canvas. split; [reflexivity|exact Hctx].
  - rewrite held_app.
    destruct Hstopped as (_ & _ & _ & _ & _ & _ & _ & ->). reflexivity.
Qed.

Lemma step_running env (s : State) (h : nat) (t : Tick) :
  quiet env -> Running env s h -> exists h', Running env (step env s t) h'.
Proof.
  intros Hq (Hcanvas & Hraf & Hcam & Hpose & Hvideo & Hsrc & Han & Hac & Hbuf & Hheld).
  destruct Hcanvas as (canvas & Hc & Hctx).
  destruct t as [|r| |w]; unfold step.
  - rewrite Hraf. unfold isPending. rewrite Hheld. cbn [pendingFrames existsb].
    rewrite Nat.eqb_refl. cbn [orb].
    rewrite (render_quiet env _ canvas Hq) by (try exact Hctx; exact Hc).
    exists (frameCounter s). cbn [snd]. unfold Running, videoSource in *.
    cbn [record canvasRef videoRef cameraRef poseRef landmarksRef audioContextRef
         analyserRef audioBufferRef rafRef frameCounter surface log].
    repeat split; try assumption.
    + exists canvas. split; assumption.
    + apply drawFrame_buffer. exact Hbuf.
    + rewrite <- app_assoc, held_app, Hheld. cbn [app fold_left perform].
      cbn [activeTracks audioContexts analysers detectors framePumps pendingFrames].
      rewrite dropId_self. reflexivity.
  - destruct (poseRef s) as [p|] eqn:Hp; [|contradiction].
    exists h. unfold Running, videoSource in *. cbn.
    rewrite Hp. repeat split; try assumption; try discriminate.
    exists canvas. split; assumption.
  - destruct (cameraRef s) as [c|] eqn:Hcm; [|contradiction].
    exists h. unfold onFrame, bind, gets, call.
    destruct (poseRef s) as [p|] eqn:Hp; [|contradiction].
    destruct (videoRef s) as [v|] eqn:Hv; [|contradiction].
    rewrite Hq. cbn [snd]. unfold Running, videoSource in *.
    cbn [record canvasRef videoRef cameraRef poseRef landmarksRef audioContextRef
         analyserRef audioBufferRef rafRef frameCounter surface log].
    rewrite Hcm, Hp, Hv. repeat split; try assumption; try discriminate.
    + exists canvas. split; assumption.
    + rewrite Hv in Hsrc. exact Hsrc.
    + rewrite held_app, Hheld. reflexivity.
  - destruct (analyserRef s) as [a|] eqn:Ha; [|contradiction].
    exists h. unfold Running, videoSource in *. cbn.
    repeat split; try assumption; try discriminate.
    exists canvas. split; assumption.
Qed.

Lemma run_running env (ticks : list Tick) (s : State) (h : nat) :
  quiet env -> Running env s h -> exists h', Running env (run env s ticks) h'.
Proof.
  intro Hq. revert s h. induction ticks as [|t ticks IH]; intros s h Hrun.
  - exists h. exact Hrun.
  - destruct (step_running env s h t Hq Hrun) as [h' Hrun'].
    exact (IH _ _ Hrun').
Qed.

Lemma stop_running env (s : State) (h : nat) :
  Running env s h ->
  releaseSteps s = releases env (S h) /\ Stopped (released s).
Proof.
  intros (_ & Hraf & Hcam & Hpose & Hvideo & Hsrc & Han & Hac & Hbuf & Hheld).
  assert (Hsteps : releaseSteps s = releases env (S h)).
  { unfold releaseSteps, releases, videoSource in *. rewrite Hraf.
    destruct (cameraRef s); [|contradiction]. destruct (poseRef s); [|contradiction].
    destruct (videoRef s) as [v|]; [|contradiction]. rewrite Hsrc.
    destruct (analyserRef s); [|contradiction].
    destruct (audioContextRef s); [|contradiction]. reflexivity. }
  split; [exact Hsteps|].
  unfold Stopped, videoSource, released.
  cbn [canvasRef videoRef cameraRef poseRef landmarksRef audioContextRef
       analyserRef audioBufferRef rafRef frameCounter surface log].
  repeat split.
  - destruct (videoRef s) as [v|]; [|reflexivity].
    destruct (srcObject v) eqn:Hs; [reflexivity|exact Hs].
  - rewrite held_app, Hheld, Hsteps. apply held_releases.
Qed.

(** ** The session lifecycle *)

Lemma quietEnv_quiet : quiet quietEnv.
Proof. intro e. reflexivity. Qed.

Lemma mounted_stopped : Stopped mounted.
Proof. unfold Stopped. repeat split. Qed.

(** C1, as stated, fails: [stop] does not discard the landmark cache; the
    landmarks the detector reported before [stop] are still there after it. *)
Lemma C1_landmark_cache_counterexample :
  let s1 := snd (start quietEnv mounted) in
  let s2 := run quietEnv s1 [PoseResults (Some sampleShoulders)] in
  let s3 := snd (stop quietEnv s2) in
  fst (start quietEnv mounted) = Ok tt
  /\ fst (stop quietEnv s2) = Ok tt
  /\ audioBufferRef s3 = None
  /\ landmarksRef s3 = Some sampleShoulders
  /\ landmarksRef s3 <> None.
Proof.
  cbv zeta. repeat split. discriminate.
Qed.

(** C1 (amended): after a completed [start], and whatever frames, detector
    results, camera frames and audio came in between, a single [stop]
    releases every acquired resource exactly once: it cancels the pending
    render frame, stops the frame pump, closes the pose detector, stops all
    media tracks and clears the playback surface's source, disconnects the
    analysis node, closes the audio context and discards the sample buffer;
    nothing stays held, and a second [stop] right after changes nothing and
    raises no error. *)
Theorem C1_stop_releases_once env (s0 : State) canvas video (ticks : list Tick) :
  quiet env -> cancelled env = false -> NoDup (userMedia env) ->
  Stopped s0 ->
  canvasRef s0 = Some canvas -> context2d canvas = true -> videoRef s0 = Some video ->
  let s1 := snd (start env s0) in
  let s2 := run env s1 ticks in
  let s3 := snd (stop env s2) in
  fst (start env s0) = Ok tt
  /\ exists h,
      rafRef s2 = Some h
      /\ held (log s2) = mkResources (userMedia env) 1 1 1 1 [h]
      /\ fst (stop env s2) = Ok tt
      /\ log s3 = log s2 ++ releases env h
      /\ NoDup (releases env h)
      /\ Stopped s3
      /\ stop env s3 = (Ok tt, s3).
Proof.
  intros Hq Hcancel Hnd Hstopped Hc Hctx Hv s1 s2 s3.
  destruct (start_running env s0 canvas video Hq Hcancel Hstopped Hc Hctx Hv)
    as [Hok Hrun1].
  split; [exact Hok|].
  destruct (run_running env ticks _ _ Hq Hrun1) as [h Hrun2]. fold s1 s2 in Hrun2.
  exists (S h).
  destruct (stop_running env s2 h Hrun2) as [Hsteps Hstop].
  assert (Hs3 : stop env s2 = (Ok tt, released s2)) by (apply stop_quiet; exact Hq).
  unfold s3. rewrite Hs3. cbn [fst snd].
  destruct Hrun2 as (_ & Hraf & _ & _ & _ & _ & _ & _ & _ & Hheld).
  repeat split; try assumption; try apply Hstop.
  - unfold released. cbn [log]. rewrite Hsteps. reflexivity.
  - apply NoDup_releases. exact Hnd.
  - apply stop_released.
Qed.

Lemma C1_stop_releases_once_witness :
  let s2 := run quietEnv (snd (start quietEnv mounted))
              [PoseResults (Some sampleShoulders); Paint; CameraFrame; Audio [0.2]] in
  exists h,
    rafRef s2 = Some h
    /\ held (log s2) = mkResources (userMedia quietEnv) 1 1 1 1 [h]
    /\ fst (stop quietEnv s2) = Ok tt
    /\ log (snd (stop quietEnv s2)) = log s2 ++ releases quietEnv h
    /\ NoDup (releases quietEnv h)
    /\ Stopped (snd (stop quietEnv s2))
    /\ stop quietEnv (snd (stop quietEnv s2)) = (Ok tt, snd (stop quietEnv s2)).
Proof.
  assert (Hnd : NoDup (userMedia quietEnv)).
  { cbn. repeat constructor; cbn; intuition discriminate. }
  exact (proj2 (C1_stop_releases_once quietEnv mounted sampleCanvas (mkVideo None 0)
                  [PoseResults (Some sampleShoulders); Paint; CameraFrame; Audio [0.2]]
                  quietEnv_quiet eq_refl Hnd mounted_stopped eq_refl eq_refl eq_refl)).
Defined.

Lemma firstThrow_split env (es : list Event) (e : Event) :
  firstThrow env es = Some e ->
  exists before after,
    es = before ++ e :: after
    /\ untilThrow env es = before
    /\ throws env e = true.
Proof.
  induction es as [|a es IH]; [discriminate|].
  cbn [firstThrow untilThrow]. destruct (throws env a) eqn:Ha.
  - intro H. injection H as <-. exists [], es. repeat split. exact Ha.
  - intro H. destruct (IH H) as (before & after & -> & Hu & He).
    exists (a :: before), after. rewrite Hu. repeat split. exact He.
Qed.

(** C4, as stated, fails: when stopping the frame pump throws, [stop] ends
    there; the detector is not closed and the tracks are not stopped, though
    both were due. *)
Lemma C4_release_after_throw_counterexample :
  let s1 := snd (start pumpStopThrowsEnv mounted) in
  let s2 := snd (stop pumpStopThrowsEnv s1) in
  fst (stop pumpStopThrowsEnv s1) = Throw CameraStop
  /\ In PoseClose (releaseSteps s1)
  /\ ~ In PoseClose (log s2)
  /\ poseRef s2 <> None
  /\ detectors (held (log s2)) = 1%nat
  /\ activeTracks (held (log s2)) = userMedia pumpStopThrowsEnv.
Proof.
  cbv zeta. repeat split.
  - cbn. auto 10.
  - cbn. intuition discriminate.
  - discriminate.
Qed.

(** C4 (amended): [stop] issues the release calls that are due in order, up
    to the first one that throws; the calls before it have happened, the
    throwing call ends [stop], and the release steps after it do not run.
    When no release call throws every one of them runs, once. *)
Theorem C4_release_until_throw env (s : State) :
  fst (stop env s) = verdict env (releaseSteps s)
  /\ log (snd (stop env s)) = log s ++ untilThrow env (releaseSteps s)
  /\ (forall e,
         firstThrow env (releaseSteps s) = Some e ->
         fst (stop env s) = Throw e
         /\ exists before after,
             releaseSteps s = before ++ e :: after
             /\ log (snd (stop env s)) = log s ++ before)
  /\ (firstThrow env (releaseSteps s) = None ->
      stop env s = (Ok tt, released s)
      /\ log (snd (stop env s)) = log s ++ releaseSteps s).
Proof.
  destruct (stop_calls env s) as (H1 & H2 & H3).
  split; [exact H1|]. split; [exact H2|]. split.
  - intros e He. unfold verdict in H1. rewrite He in H1. split; [exact H1|].
    destruct (firstThrow_split env _ e He) as (before & after & Hes & Hu & _).
    exists before, after. split; [exact Hes|]. rewrite H2, Hu. reflexivity.
  - intro Hnone. specialize (H3 Hnone). unfold verdict in H1. rewrite Hnone in H1.
    split.
    + destruct (stop env s) as [o s']. cbn [fst snd] in *. subst. reflexivity.
    + rewrite H3. reflexivity.
Qed.

Lemma C4_release_until_throw_witness :
  let s1 := snd (start pumpStopThrowsEnv mounted) in
  fst (stop pumpStopThrowsEnv s1) = Throw CameraStop
  /\ exists before after,
      releaseSteps s1 = before ++ CameraStop :: after
      /\ log (snd (stop pumpStopThrowsEnv s1)) = log s1 ++ before.
Proof.
  exact (proj1 (proj2 (proj2 (C4_release_until_throw pumpStopThrowsEnv
                                (snd (start pumpStopThrowsEnv mounted)))))
           CameraStop eq_refl).
Defined.

(** C3, as stated, fails: when the pose detector cannot be constructed,
    [start] logs the error and ends with the audio context open, the analysis
    node connected and the media tracks active. *)
Lemma C3_failed_start_counterexample :
  let s1 := snd (start noDetectorEnv mounted) in
  fst (acquire noDetectorEnv mounted) = Throw NewPose
  /\ audioContextRef s1 = Some mkAudioContext
  /\ audioContexts (held (log s1)) = 1%nat
  /\ activeTracks (held (log s1)) = userMedia noDetectorEnv
  /\ poseRef s1 = None /\ rafRef s1 = None
  /\ ~ Stopped s1.
Proof.
  cbv zeta. repeat split.
  intros (_ & _ & _ & _ & _ & H & _). discriminate H.
Qed.

(** C3 (amended): when device acquisition fails, [start] logs the error and
    ends with nothing acquired: the refs and the drawing surface are as
    before, no audio context, no detector and no active media track is held,
    and a stopped session is still stopped. *)
Theorem C3_failed_acquisition env (s : State) :
  throws env (GetUserMedia (userMedia env)) = true ->
  let s1 := snd (start env s) in
  start env s = (Ok tt, record ConsoleError s)
  /\ held (log s1) = held (log s)
  /\ surface s1 = surface s
  /\ (Stopped s ->
      Stopped s1
      /\ audioContexts (held (log s1)) = 0%nat
      /\ detectors (held (log s1)) = 0%nat
      /\ activeTracks (held (log s1)) = []).
Proof.
  intros Hthrow s1.
  assert (Hstart : start env s = (Ok tt, record ConsoleError s)).
  { unfold start, try_catch, acquire, bind, call. rewrite Hthrow. reflexivity. }
  unfold s1. rewrite Hstart. cbn [snd].
  assert (Hheld : held (log (record ConsoleError s)) = held (log s)).
  { cbn [record log]. rewrite held_app. reflexivity. }
  split; [reflexivity|]. split; [exact Hheld|]. split; [reflexivity|].
  intros (Hraf & Hcam & Hpose & Hsrc & Han & Hac & Hbuf & Hnone).
  rewrite Hheld, Hnone. split; [|repeat split].
  unfold Stopped, videoSource in *. rewrite Hheld.
  cbn [record canvasRef videoRef cameraRef poseRef landmarksRef audioContextRef
       analyserRef audioBufferRef rafRef frameCounter surface log].
  repeat split; assumption.
Qed.

Lemma C3_failed_acquisition_witness :
  start deniedEnv mounted = (Ok tt, record ConsoleError mounted)
  /\ Stopped (snd (start deniedEnv mounted)).
Proof.
  pose proof (C3_failed_acquisition deniedEnv mounted eq_refl) as H.
  cbv zeta in H. destruct H as (Hstart & _ & _ & Hstopped).
  split; [exact Hstart|]. exact (proj1 (Hstopped mounted_stopped)).
Defined.

(** ** More on the audio envelope *)

Lemma getFloatTimeDomainData_length (a : AnalyserNode) (b : Float32Array) :
  length (getFloatTimeDomainData a b) = length b.
Proof.
  unfold getFloatTimeDomainData.
  rewrite length_app, length_firstn, length_skipn. lia.
Qed.

Lemma scaled_range (r : R) : 0 <= Rmax 0 (Rmin 1 ((r - 0.01) * 12)) <= 1.
Proof.
  unfold Rmax, Rmin.
  destruct (Rle_dec 1 ((r - 0.01) * 12)); destruct (Rle_dec 0 _); lra.
Qed.

Lemma scaled_monotone (r1 r2 : R) :
  r1 <= r2 ->
  Rmax 0 (Rmin 1 ((r1 - 0.01) * 12)) <= Rmax 0 (Rmin 1 ((r2 - 0.01) * 12)).
Proof.
  intro H. unfold Rmax, Rmin.
  destruct (Rle_dec 1 ((r1 - 0.01) * 12)), (Rle_dec 1 ((r2 - 0.01) * 12));
    repeat match goal with |- context [Rle_dec ?a ?b] => destruct (Rle_dec a b) end;
    lra.
Qed.

(** X1: for a non-empty buffer the value [computeRms] returns lies in
    [0, 1], whatever the waveform. *)
Theorem X1_envelope_range (analyser : AnalyserNode) (buffer : Float32Array) :
  buffer <> [] -> 0 <= fst (computeRms analyser buffer) <= 1.
Proof.
  intros _. unfold computeRms. cbn [fst]. apply scaled_range.
Qed.

Lemma X1_envelope_range_witness :
  0 <= fst (computeRms (mkAnalyser 1024 0.6 [0.5; -0.5]) [0; 0]) <= 1.
Proof.
  apply (X1_envelope_range (mkAnalyser 1024 0.6 [0.5; -0.5]) [0; 0]). discriminate.
Defined.

(** X2: the envelope does not decrease when the RMS amplitude grows. *)
Theorem X2_envelope_monotone (a1 a2 : AnalyserNode) (b1 b2 : Float32Array) :
  b1 <> [] -> b2 <> [] ->
  rmsOf (getFloatTimeDomainData a1 b1) <= rmsOf (getFloatTimeDomainData a2 b2) ->
  fst (computeRms a1 b1) <= fst (computeRms a2 b2).
Proof.
  intros _ _ H. unfold computeRms. cbn [fst]. apply scaled_monotone. exact H.
Qed.

Lemma X2_envelope_monotone_witness :
  fst (computeRms (mkAnalyser 1024 0.6 [0.02]) [0])
  <= fst (computeRms (mkAnalyser 1024 0.6 [0.05]) [0]).
Proof.
  apply (X2_envelope_monotone (mkAnalyser 1024 0.6 [0.02]) (mkAnalyser 1024 0.6 [0.05])
           [0] [0]); try discriminate.
  rewrite !getFloatTimeDomainData_fill by reflexivity. cbn [timeDomainData].
  rewrite !rmsOf_single by lra. lra.
Defined.

(** X3: [computeRms] keeps the length of the buffer; when the waveform is at
    least as long as the buffer, the buffer is overwritten entirely, so the
    result does not depend on what the buffer held before. *)
Theorem X3_buffer_overwritten (analyser : AnalyserNode) (b b' : Float32Array) :
  length (snd (computeRms analyser b)) = length b
  /\ ((length b <= length (timeDomainData analyser))%nat ->
      snd (computeRms analyser b) = firstn (length b) (timeDomainData analyser)
      /\ (length b' = length b -> computeRms analyser b' = computeRms analyser b)).
Proof.
  unfold computeRms. cbn [snd]. split; [apply getFloatTimeDomainData_length|].
  intro Hlen.
  assert (Hfill : forall c, length c = length b ->
                            getFloatTimeDomainData analyser c
                            = firstn (length b) (timeDomainData analyser)).
  { intros c Hc. unfold getFloatTimeDomainData.
    rewrite skipn_all2 by lia. rewrite app_nil_r, Hc. reflexivity. }
  split; [apply Hfill; reflexivity|].
  intro Hb'. rewrite (Hfill b' Hb'), (Hfill b eq_refl). reflexivity.
Qed.

Lemma X3_buffer_overwritten_witness :
  computeRms (mkAnalyser 1024 0.6 [0.1; 0.2; 0.3]) [7; 8]
  = computeRms (mkAnalyser 1024 0.6 [0.1; 0.2; 0.3]) [0; 0].
Proof.
  apply (proj2 (X3_buffer_overwritten (mkAnalyser 1024 0.6 [0.1; 0.2; 0.3]) [0; 0] [7; 8])).
  - cbn. lia.
  - reflexivity.
Defined.

Lemma sumSquares_bounds (c : R) (buffer : Float32Array) (acc : R) :
  0 <= c ->
  (Forall (fun v => Rabs v <= c) buffer ->
   fold_left (fun s v => s + v * v) buffer acc <= acc + INR (length buffer) * (c * c))
  /\ (Forall (fun v => c <= Rabs v) buffer ->
      acc + INR (length buffer) * (c * c) <= fold_left (fun s v => s + v * v) buffer acc).
Proof.
  intro Hc. revert acc. induction buffer as [|v buffer IH]; intro acc.
  - cbn. split; intros _; lra.
  - assert (Hsq : v * v = Rabs v * Rabs v).
    { unfold Rabs. destruct (Rcase_abs v); ring. }
    pose proof (Rabs_pos v) as Hpos.
    cbn [fold_left length]. rewrite S_INR. destruct (IH (acc + v * v)) as [IHu IHl].
    split; intro H; inversion H as [|? ? Hv Hrest]; subst.
    + specialize (IHu Hrest). rewrite Hsq in *. nra.
    + specialize (IHl Hrest). rewrite Hsq in *. nra.
Qed.

Lemma rmsOf_bounds (c : R) (buffer : Float32Array) :
  0 <= c -> buffer <> [] ->
  (Forall (fun v => Rabs v <= c) buffer -> rmsOf buffer <= c)
  /\ (Forall (fun v => c <= Rabs v) buffer -> c <= rmsOf buffer).
Proof.
  intros Hc Hne.
  assert (Hn : 0 < INR (length buffer)).
  { apply lt_0_INR. destruct buffer; [congruence|cbn; lia]. }
  destruct (sumSquares_bounds c buffer 0 Hc) as [Hu Hl].
  unfold rmsOf, sumSquares. split; intro H.
  - specialize (Hu H). apply Rle_trans with (sqrt (c * c)).
    + apply sqrt_le_1_alt.
      apply Rmult_le_reg_r with (INR (length buffer)); [exact Hn|].
      match goal with
      | |- context [?a / ?n * ?n] => replace (a / n * n) with a by (field; lra)
      end. lra.
    + rewrite sqrt_square by exact Hc. lra.
  - specialize (Hl H). apply Rle_trans with (sqrt (c * c)).
    + rewrite sqrt_square by exact Hc. lra.
    + apply sqrt_le_1_alt.
      apply Rmult_le_reg_r with (INR (length buffer)); [exact Hn|].
      match goal with
      | |- context [?a / ?n * ?n] => replace (a / n * n) with a by (field; lra)
      end. lra.
Qed.

(** X4: when every sample read is within the noise floor (at most 0.01 in
    magnitude) the envelope is 0; when every sample is at least 0.01 + 1/12
    in magnitude it is 1. *)
Theorem X4_noise_floor_and_saturation (analyser : AnalyserNode) (buffer : Float32Array) :
  buffer <> [] ->
  (Forall (fun v => Rabs v <= 0.01) (getFloatTimeDomainData analyser buffer) ->
   fst (computeRms analyser buffer) = 0)
  /\ (Forall (fun v => 0.01 + 1 / 12 <= Rabs v) (getFloatTimeDomainData analyser buffer) ->
      fst (computeRms analyser buffer) = 1).
Proof.
  intro Hne.
  assert (Hne' : getFloatTimeDomainData analyser buffer <> []).
  { intro H. apply (f_equal (@length R)) in H.
    rewrite getFloatTimeDomainData_length in H. destruct buffer; [congruence|discriminate]. }
  unfold computeRms. cbn [fst]. split; intro H.
  - apply scaled_low. apply (rmsOf_bounds 0.01); [lra|exact Hne'|exact H].
  - apply scaled_high. apply (rmsOf_bounds (0.01 + 1 / 12)); [lra|exact Hne'|exact H].
Qed.

Lemma X4_noise_floor_and_saturation_witness :
  fst (computeRms (mkAnalyser 1024 0.6 [0.004; -0.009; 0]) [0; 0; 0]) = 0
  /\ fst (computeRms (mkAnalyser 1024 0.6 [0.5; -0.2; 0.1]) [0; 0; 0]) = 1.
Proof.
  split.
  - apply (proj1 (X4_noise_floor_and_saturation
                    (mkAnalyser 1024 0.6 [0.004; -0.009; 0]) [0; 0; 0] ltac:(discriminate))).
    rewrite getFloatTimeDomainData_fill by reflexivity. cbn [timeDomainData].
    repeat constructor; unfold Rabs; destruct (Rcase_abs _); lra.
  - apply (proj2 (X4_noise_floor_and_saturation
                    (mkAnalyser 1024 0.6 [0.5; -0.2; 0.1]) [0; 0; 0] ltac:(discriminate))).
    rewrite getFloatTimeDomainData_fill by reflexivity. cbn [timeDomainData].
    repeat constructor; unfold Rabs; destruct (Rcase_abs _); lra.
Defined.

(** ** More on the compositor *)

Lemma arcs_app (l1 l2 : list DrawCmd) : arcs (l1 ++ l2) = arcs l1 ++ arcs l2.
Proof. apply flat_map_app. Qed.

Lemma thumbnails_app (l1 l2 : list DrawCmd) :
  thumbnails (l1 ++ l2) = thumbnails l1 ++ thumbnails l2.
Proof. apply flat_map_app. Qed.

Lemma drawSkeleton_plain canvas lm :
  arcs (drawSkeleton canvas lm) = [] /\ thumbnails (drawSkeleton canvas lm) = [].
Proof.
  unfold drawSkeleton, skeletonSegments. rewrite !arcs_app, !thumbnails_app.
  cbn [arcs thumbnails flat_map app].
  induction SKELETON_CONNECTIONS as [|[a b] l [IH1 IH2]]; [split; reflexivity|].
  cbn [flat_map]. rewrite arcs_app, thumbnails_app.
  destruct (lm_at lm a), (lm_at lm b); cbn [arcs thumbnails flat_map app];
    split; assumption.
Qed.


Lemma headRadius_range canvas ls rs : 24 <= headRadius canvas ls rs <= 80.
Proof.
  unfold headRadius, Rmax, Rmin.
  destruct (Rle_dec 80 _); destruct (Rle_dec 24 _); lra.
Qed.

(** The three shapes of a frame. *)
Lemma drawFrame_cases canvas lm analyser buf video :
  let frame := fst (drawFrame canvas lm analyser buf video) in
  (hasLandmarks lm = None
   /\ frame = drawBackground canvas
              ++ drawIdleFace canvas (fst (mouthOpenOr 0.12 analyser buf))
              ++ drawPreview canvas video)
  \/ (exists l ls rs,
         lm = Some l /\ lm_at l LM.LEFT_SHOULDER = Some ls
         /\ lm_at l LM.RIGHT_SHOULDER = Some rs
         /\ frame = drawBackground canvas
                    ++ (drawSkeleton canvas l
                          ++ drawTrackedFace canvas ls rs (fst (mouthOpenOr 0.15 analyser buf)))
                    ++ drawPreview canvas video)
  \/ (exists l,
         lm = Some l /\ l <> []
         /\ (lm_at l LM.LEFT_SHOULDER = None \/ lm_at l LM.RIGHT_SHOULDER = None)
         /\ frame = drawBackground canvas ++ drawSkeleton canvas l
                    ++ drawPreview canvas video).
Proof.
  cbv zeta. destruct lm as [[|p l]|].
  - left. split; [reflexivity|]. rewrite drawFrame_idle by reflexivity. reflexivity.
  - set (c := p :: l).
    destruct (lm_at c LM.LEFT_SHOULDER) as [ls|] eqn:Hl;
      [destruct (lm_at c LM.RIGHT_SHOULDER) as [rs|] eqn:Hr|].
    + right. left. exists c, ls, rs. rewrite (drawFrame_tracked _ _ _ _ _ _ _ Hl Hr).
      repeat split; assumption.
    + right. right. exists c.
      rewrite drawFrame_no_shoulders by (try discriminate; right; exact Hr).
      repeat split; try discriminate. right; exact Hr.
    + right. right. exists c.
      rewrite drawFrame_no_shoulders by (try discriminate; left; exact Hl).
      repeat split; try discriminate. left; exact Hl.
  - left. split; [reflexivity|]. rewrite drawFrame_idle by reflexivity. reflexivity.
Qed.


Lemma mouthOpenOr_range idle analyser buf :
  0 <= idle <= 1 -> 0 <= fst (mouthOpenOr idle analyser buf) <= 1.
Proof.
  intro H. unfold mouthOpenOr. destruct analyser as [a|]; [|exact H].
  destruct buf as [b|]; [|exact H]. unfold computeRms. cbn [fst]. apply scaled_range.
Qed.

(** X6: the mouth never vanishes and never outgrows the face: on the idle
    face its height is between 6 and 30, on the tracked face between 0.08 and
    0.6 times the head radius, that is between 1.92 and 48. *)
Theorem X6_mouth_height_bounds canvas lm analyser buf video :
  buf <> Some [] ->
  let frame := fst (drawFrame canvas lm analyser buf video) in
  (hasLandmarks lm = None ->
   exists h, mouthHeights frame = [h] /\ 6 <= h <= 30)
  /\ (forall l ls rs,
         lm = Some l ->
         lm_at l LM.LEFT_SHOULDER = Some ls ->
         lm_at l LM.RIGHT_SHOULDER = Some rs ->
         let r := headRadius canvas ls rs in
         exists h, mouthHeights frame = [h]
                   /\ 0.08 * r <= h <= 0.6 * r /\ 1.92 <= h <= 48).
Proof.
  intros _ frame. split.
  - intro Hidle. unfold frame.
    destruct (idle_frame_shapes canvas lm analyser buf video Hidle) as [_ ->].
    eexists. split; [reflexivity|].
    pose proof (mouthOpenOr_range 0.12 analyser buf ltac:(lra)) as Hm.
    unfold Rmax. destruct (Rle_dec 6 _); lra.
  - intros l ls rs -> Hl Hr r. unfold frame.
    destruct (tracked_frame_shapes canvas l ls rs analyser buf video Hl Hr) as [_ ->].
    eexists. split; [reflexivity|]. fold r.
    pose proof (mouthOpenOr_range 0.15 analyser buf ltac:(lra)) as Hm.
    pose proof (headRadius_range canvas ls rs) as Hr'. fold r in Hr'.
    set (m := fst (mouthOpenOr 0.15 analyser buf)) in *.
    unfold Rmax. destruct (Rle_dec (r * 0.08) (r * m * 0.6)); split; nra.
Qed.

Lemma X6_mouth_height_bounds_witness :
  exists h,
    mouthHeights (fst (drawFrame sampleCanvas None (Some (mkAnalyser 1024 0.6 [0.1]))
                         (Some [0]) None)) = [h]
    /\ 6 <= h <= 30.
Proof.
  apply (proj1 (X6_mouth_height_bounds sampleCanvas None (Some (mkAnalyser 1024 0.6 [0.1]))
                  (Some [0]) None ltac:(discriminate))).
  reflexivity.
Defined.

Lemma shoulderDist_sym canvas ls rs : shoulderDist canvas ls rs = shoulderDist canvas rs ls.
Proof. unfold shoulderDist, Math_hypot. f_equal. ring. Qed.

(** X7: head, eyes and mouth do not depend on which shoulder is the left
    one: exchanging the two shoulder keypoints gives the same face. *)
Theorem X7_face_symmetric canvas ls rs mouthOpen :
  drawTrackedFace canvas ls rs mouthOpen = drawTrackedFace canvas rs ls mouthOpen.
Proof.
  unfold drawTrackedFace, headRadius. rewrite (shoulderDist_sym canvas ls rs).
  replace (x ls + x rs) with (x rs + x ls) by ring.
  replace (y ls + y rs) with (y rs + y ls) by ring.
  reflexivity.
Qed.

(** The segments of any frame are the expected ones. *)
Lemma frame_segments canvas (lm : Landmarks) analyser buf video :
  segments (fst (drawFrame canvas (Some lm) analyser buf video))
  = expectedSegments canvas lm SKELETON_CONNECTIONS.
Proof.
  destruct (drawFrame_cases canvas (Some lm) analyser buf video)
    as [[Hidle ->]|[(l & ls & rs & Heq & _ & _ & ->)|(l & Heq & _ & _ & ->)]].
  - destruct lm as [|p l]; [|discriminate Hidle].
    rewrite expectedSegments_empty.
    rewrite <- (app_nil_r (drawBackground canvas ++ _)).
    apply segments_offPath. rewrite forallb_app.
    rewrite (proj2 (face_offPath canvas (mkLandmark 0 0) (mkLandmark 0 0)
                      (fst (mouthOpenOr 0.12 analyser buf)) video)).
    reflexivity.
  - injection Heq as <-. rewrite segments_offPath by reflexivity.
    rewrite <- app_assoc. apply segments_drawSkeleton. apply face_offPath.
  - injection Heq as <-. rewrite segments_offPath by reflexivity.
    apply segments_drawSkeleton. apply drawPreview_shapes.
Qed.

Lemma expectedSegments_length canvas lm (connections : list (nat * nat)) :
  (length (expectedSegments canvas lm connections) <= length connections)%nat.
Proof.
  induction connections as [|[a b] rest IH]; [apply Nat.le_refl|].
  cbn [expectedSegments length].
  destruct (lm_at lm a); [destruct (lm_at lm b)|]; cbn [length]; lia.
Qed.

Lemma lm_at_beyond (lm : Landmarks) (i : nat) :
  (length lm <= i)%nat -> lm_at lm i = None.
Proof.
  intro H. unfold lm_at. apply nth_error_None in H. rewrite H. reflexivity.
Qed.

Lemma connection_indices (a b : nat) :
  In (a, b) SKELETON_CONNECTIONS -> (11 <= a < 29 /\ 11 <= b < 29)%nat.
Proof.
  intro H.
  assert (Hall : Forall (fun ab : nat * nat =>
                           (11 <= fst ab < 29 /\ 11 <= snd ab < 29)%nat)
                   SKELETON_CONNECTIONS).
  { unfold SKELETON_CONNECTIONS. repeat constructor. }
  rewrite Forall_forall in Hall. exact (Hall (a, b) H).
Qed.

Lemma expectedSegments_none canvas lm (connections : list (nat * nat)) :
  (forall a b, In (a, b) connections -> lm_at lm a = None) ->
  expectedSegments canvas lm connections = [].
Proof.
  induction connections as [|[a b] rest IH]; intro H; [reflexivity|].
  cbn [expectedSegments]. rewrite (H a b (or_introl eq_refl)).
  apply IH. intros a' b' Hin. apply (H a' b'). right. exact Hin.
Qed.

Lemma expectedSegments_all canvas lm (connections : list (nat * nat)) :
  (forall a b, In (a, b) connections ->
               (exists p, lm_at lm a = Some p) /\ (exists p, lm_at lm b = Some p)) ->
  length (expectedSegments canvas lm connections) = length connections.
Proof.
  induction connections as [|[a b] rest IH]; intro H; [reflexivity|].
  cbn [expectedSegments]. destruct (H a b (or_introl eq_refl)) as [[p1 ->] [p2 ->]].
  cbn [length]. f_equal. apply IH. intros a' b' Hin. apply (H a' b'). right. exact Hin.
Qed.

(** X8: a frame has at most twelve bones; a landmark array of at most
    eleven entries (no index from 11 on) gives none, and one whose first 29
    entries are all keypoints gives all twelve. *)
Theorem X8_bone_count canvas (lm : Landmarks) analyser buf video :
  let bones := segments (fst (drawFrame canvas (Some lm) analyser buf video)) in
  (length bones <= 12)%nat
  /\ ((length lm <= 11)%nat -> bones = [])
  /\ ((forall i, (i < 29)%nat -> exists p, nth_error lm i = Some (Some p)) ->
      length bones = 12%nat).
Proof.
  cbv zeta. rewrite frame_segments. split; [|split].
  - apply (expectedSegments_length canvas lm SKELETON_CONNECTIONS).
  - intro Hlen. apply expectedSegments_none. intros a b Hin.
    apply lm_at_beyond. destruct (connection_indices a b Hin). lia.
  - intro Hall.
    assert (Hsome : forall i, (i < 29)%nat -> exists p, lm_at lm i = Some p).
    { intros i Hi. destruct (Hall i Hi) as [p Hp]. exists p. unfold lm_at.
      rewrite Hp. reflexivity. }
    rewrite expectedSegments_all; [reflexivity|].
    intros a b Hin. destruct (connection_indices a b Hin).
    split; apply Hsome; lia.
Qed.

Lemma X8_bone_count_witness :
  length (segments (fst (drawFrame sampleCanvas (Some sampleFullBody) None None None)))
  = 12%nat
  /\ segments (fst (drawFrame sampleCanvas (Some sampleNoShoulders) None None None)) = [].
Proof.
  split.
  - apply (proj2 (proj2 (X8_bone_count sampleCanvas sampleFullBody None None None))).
    intros i Hi. exists (mkLandmark 0.5 0.5).
    do 29 (destruct i as [|i]; [reflexivity|]). lia.
  - apply (proj1 (proj2 (X8_bone_count sampleCanvas sampleNoShoulders None None None))).
    cbn. lia.
Defined.

(** X9: when the keypoints are normalized (coordinates in [0, 1]) every
    endpoint of every bone lies on the surface. *)
Theorem X9_bones_on_surface canvas (lm : Landmarks) analyser buf video :
  0 <= width canvas -> 0 <= height canvas ->
  (forall i p, lm_at lm i = Some p -> 0 <= x p <= 1 /\ 0 <= y p <= 1) ->
  forall x1 y1 x2 y2,
    In ((x1, y1), (x2, y2))
      (segments (fst (drawFrame canvas (Some lm) analyser buf video))) ->
    0 <= x1 <= width canvas /\ 0 <= y1 <= height canvas
    /\ 0 <= x2 <= width canvas /\ 0 <= y2 <= height canvas.
Proof.
  intros Hw Hh Hnorm x1 y1 x2 y2 Hin. rewrite frame_segments in Hin.
  apply In_expectedSegments in Hin.
  destruct Hin as (a & b & p1 & p2 & _ & Ha & Hb & Heq).
  injection Heq as -> -> -> ->.
  destruct (Hnorm a p1 Ha) as [Hx1 Hy1]. destruct (Hnorm b p2 Hb) as [Hx2 Hy2].
  repeat split; nra.
Qed.

Lemma X9_bones_on_surface_witness :
  0 <= 0.5 * 1280 <= width sampleCanvas /\ 0 <= 0.5 * 720 <= height sampleCanvas
  /\ 0 <= 0.34375 * 1280 <= width sampleCanvas /\ 0 <= 0.5 * 720 <= height sampleCanvas.
Proof.
  apply (X9_bones_on_surface sampleCanvas sampleShoulders None None None).
  - cbn. unfold canvasSizeWidth. lra.
  - cbn. unfold canvasSizeHeight. lra.
  - intros i p H. unfold lm_at, sampleShoulders in H.
    do 13 (destruct i as [|i]; [cbn in H; try discriminate H; injection H as <-; cbn; lra|]).
    cbn in H. destruct i; discriminate H.
  - rewrite frame_segments. left. reflexivity.
Defined.

Lemma Math_round_thumbnail : Math_round (200 * (9 / 16)) = 113.
Proof.
  unfold Math_round.
  replace (200 * (9 / 16) + / 2) with (INR 113) by (rewrite INR_IZR_INZ; cbn; lra).
  rewrite Int_part_INR. reflexivity.
Qed.

(** X10: the camera thumbnail is drawn exactly when the video element is
    there with [readyState] at least 2; it is then 200 by 113 and sits 14
    pixels from the right and bottom edges of the surface. *)
Theorem X10_thumbnail canvas lm analyser buf video :
  thumbnails (fst (drawFrame canvas lm analyser buf video))
  = match video with
    | Some v =>
        if (2 <=? readyState v)%nat
        then [(width canvas - 14 - 200, height canvas - 14 - 113, 200, 113)]
        else []
    | None => []
    end.
Proof.
  assert (Hp : thumbnails (drawPreview canvas video)
               = match video with
                 | Some v =>
                     if (2 <=? readyState v)%nat
                     then [(width canvas - 14 - 200, height canvas - 14 - 113, 200, 113)]
                     else []
                 | None => []
                 end).
  { unfold drawPreview. destruct video as [v|]; [|reflexivity].
    destruct (2 <=? readyState v)%nat; [|reflexivity].
    cbn [thumbnails flat_map app]. rewrite Math_round_thumbnail.
    replace (width canvas - 200 - 14) with (width canvas - 14 - 200) by ring.
    replace (height canvas - 113 - 14) with (height canvas - 14 - 113) by ring.
    reflexivity. }
  destruct (drawFrame_cases canvas lm analyser buf video)
    as [[_ ->]|[(l & ls & rs & _ & _ & _ & ->)|(l & _ & _ & _ & ->)]];
    rewrite !thumbnails_app, ?(proj2 (drawSkeleton_plain _ _)), Hp; reflexivity.
Qed.

(** ** The context state across a frame *)

Lemma alphaAfter_app (l1 l2 : list DrawCmd) (alpha : R) (saved : list R) :
  alphaAfter (l1 ++ l2) alpha saved
  = alphaAfter l2 (fst (alphaAfter l1 alpha saved)) (snd (alphaAfter l1 alpha saved)).
Proof.
  revert alpha saved. induction l1 as [|c l1 IH]; intros alpha saved; [reflexivity|].
  destruct c; cbn [app alphaAfter]; try apply IH.
  destruct saved; apply IH.
Qed.

Lemma paintAlphas_app (l1 l2 : list DrawCmd) (alpha : R) (saved : list R) :
  paintAlphas (l1 ++ l2) alpha saved
  = paintAlphas l1 alpha saved
    ++ paintAlphas l2 (fst (alphaAfter l1 alpha saved)) (snd (alphaAfter l1 alpha saved)).
Proof.
  revert alpha saved. induction l1 as [|c l1 IH]; intros alpha saved; [reflexivity|].
  destruct c; cbn [app alphaAfter paintAlphas]; try apply IH;
    try (rewrite IH; reflexivity).
  destruct saved; apply IH.
Qed.

Lemma skeletonSegments_alpha canvas lm (alpha : R) (saved : list R) :
  alphaAfter (skeletonSegments canvas lm) alpha saved = (alpha, saved)
  /\ paintAlphas (skeletonSegments canvas lm) alpha saved = [].
Proof.
  unfold skeletonSegments. induction SKELETON_CONNECTIONS as [|[a b] l [IH1 IH2]].
  - split; reflexivity.
  - cbn [flat_map]. rewrite alphaAfter_app, paintAlphas_app.
    destruct (lm_at lm a), (lm_at lm b); cbn [alphaAfter paintAlphas fst snd app];
      split; assumption.
Qed.

Lemma drawSkeleton_alpha canvas lm (alpha : R) (saved : list R) :
  alphaAfter (drawSkeleton canvas lm) alpha saved = (1, saved)
  /\ paintAlphas (drawSkeleton canvas lm) alpha saved = [(Stroke, 0.9)].
Proof.
  unfold drawSkeleton. rewrite !alphaAfter_app, !paintAlphas_app.
  cbn [alphaAfter paintAlphas fst snd app].
  destruct (skeletonSegments_alpha canvas lm 0.9 saved) as [-> ->].
  split; reflexivity.
Qed.

Lemma drawPreview_alpha canvas video (alpha : R) (saved : list R) :
  alphaAfter (drawPreview canvas video) alpha saved = (alpha, saved)
  /\ Forall (fun ca : DrawCmd * R => snd ca = alphaOf (fst ca))
       (paintAlphas (drawPreview canvas video) alpha saved).
Proof.
  unfold drawPreview. destruct video as [v|]; [|split; [reflexivity|constructor]].
  destruct (2 <=? readyState v)%nat; [|split; [reflexivity|constructor]].
  split; [reflexivity|]. repeat constructor.
Qed.

(** X11: a frame drawn on a context whose [globalAlpha] is 1 leaves it at
    1 and leaves the saved states as they were, so frames compose; within
    the frame the background and the face are painted opaque, the skeleton
    at alpha 0.9 and the thumbnail at alpha 0.7. *)
Theorem X11_alpha_restored canvas lm analyser buf video (saved : list R) :
  let frame := fst (drawFrame canvas lm analyser buf video) in
  alphaAfter frame 1 saved = (1, saved)
  /\ Forall (fun ca : DrawCmd * R => snd ca = alphaOf (fst ca)) (paintAlphas frame 1 saved).
Proof.
  cbv zeta.
  destruct (drawFrame_cases canvas lm analyser buf video)
    as [[_ ->]|[(l & ls & rs & _ & _ & _ & ->)|(l & _ & _ & _ & ->)]];
    repeat (progress
              (rewrite ?alphaAfter_app, ?paintAlphas_app,
                 ?(proj1 (drawSkeleton_alpha _ _ _ _)),
                 ?(proj2 (drawSkeleton_alpha _ _ _ _));
               cbn [drawBackground drawIdleFace drawTrackedFace alphaAfter paintAlphas
                    fst snd app]));
    destruct (drawPreview_alpha canvas video 1 saved) as [Ha Hp];
    rewrite ?Ha; (split; [reflexivity|]);
    repeat (constructor; [reflexivity|]); exact Hp.
Qed.

(** ** More on the lifecycle *)

(** X12: [render] never touches the capture refs: canvas, video, frame
    pump, detector, landmark cache, audio context and analysis node are as
    before; it only appends to the surface and requests at most one
    animation frame.  Without canvas or 2D context it does nothing at all,
    so the loop ends. *)
Theorem X12_render_frame env (s : State) :
  let s' := snd (render env s) in
  canvasRef s' = canvasRef s /\ videoRef s' = videoRef s
  /\ cameraRef s' = cameraRef s /\ poseRef s' = poseRef s
  /\ landmarksRef s' = landmarksRef s
  /\ audioContextRef s' = audioContextRef s /\ analyserRef s' = analyserRef s
  /\ (exists cmds, surface s' = surface s ++ cmds)
  /\ (log s' = log s \/ log s' = log s ++ [RequestAnimationFrame (S (frameCounter s))])
  /\ ((canvasRef s = None \/ exists canvas, canvasRef s = Some canvas
                                            /\ context2d canvas = false) ->
      render env s = (Ok tt, s)).
Proof.
  destruct s as [c v camera pose lm ac analyser buf raf n drawn history].
  unfold render, requestAnimationFrame, bind, gets, modify, ret, call.
  state_norm.
  destruct c as [[w h [|]]|]; cbn [context2d negb].
  - destruct (throws env (RequestAnimationFrame (S n))); cbn [snd]; state_norm;
      repeat split; try (eexists; reflexivity); try (left; reflexivity);
      try (right; reflexivity);
      intros [H|(canvas & H & Hctx)]; try discriminate H;
      injection H as <-; discriminate Hctx.
  - cbn [snd]. state_norm.
    repeat split; try (exists []; symmetry; apply app_nil_r); left; reflexivity.
  - cbn [snd]. state_norm.
    repeat split; try (exists []; symmetry; apply app_nil_r); left; reflexivity.
Qed.

Lemma stop_noop env (s : State) :
  rafRef s = None -> cameraRef s = None -> poseRef s = None -> videoSource s = None ->
  analyserRef s = None -> audioContextRef s = None -> audioBufferRef s = None ->
  stop env s = (Ok tt, s).
Proof.
  intros Hraf Hcam Hpose Hsrc Han Hac Hbuf.
  destruct (stop_calls env s) as (H1 & _ & H3).
  assert (Hnil : releaseSteps s = []).
  { unfold releaseSteps, videoSource in *. rewrite Hraf, Hcam, Hpose, Han, Hac.
    destruct (videoRef s) as [v|]; [rewrite Hsrc|]; reflexivity. }
  assert (Hsame : released s = s).
  { unfold released. rewrite Hnil, app_nil_r.
    destruct s as [c v camera pose lm ac analyser buf raf n drawn history].
    unfold videoSource in Hsrc.
    cbn [canvasRef videoRef cameraRef poseRef landmarksRef audioContextRef
         analyserRef audioBufferRef rafRef frameCounter surface log] in *.
    subst. destruct v as [[src ready]|]; [|reflexivity].
    cbn [srcObject] in *. subst. reflexivity. }
  rewrite Hnil in *. specialize (H3 eq_refl). rewrite Hsame in H3.
  destruct (stop env s) as [o s']. cbn [fst snd] in *. subst. reflexivity.
Qed.

(** X13: [stop] on a stopped session (as when the component mounts with
    [started] false) calls nothing, changes nothing and raises no error,
    whatever the platform would throw. *)
Theorem X13_stop_when_stopped env (s : State) :
  Stopped s -> stop env s = (Ok tt, s) /\ effect env false s = (Ok tt, s).
Proof.
  intros (Hraf & Hcam & Hpose & Hsrc & Han & Hac & Hbuf & _).
  assert (H : stop env s = (Ok tt, s)) by (apply stop_noop; assumption).
  split; exact H.
Qed.

Lemma X13_stop_when_stopped_witness :
  stop pumpStopThrowsEnv mounted = (Ok tt, mounted).
Proof.
  exact (proj1 (X13_stop_when_stopped pumpStopThrowsEnv mounted mounted_stopped)).
Defined.

(** X14: when the effect is cleaned up while [getUserMedia] is pending,
    [start] returns as soon as the stream arrives: no ref is set and nothing
    is drawn, but the tracks of the stream are active, and a [stop] that
    follows stops none of them. *)
Theorem X14_cancelled_start env (s : State) :
  cancelled env = true ->
  throws env (GetUserMedia (userMedia env)) = false ->
  Stopped s ->
  let s1 := snd (start env s) in
  start env s = (Ok tt, record (GetUserMedia (userMedia env)) s)
  /\ stop env s1 = (Ok tt, s1)
  /\ activeTracks (held (log s1)) = userMedia env
  /\ activeTracks (held (log (snd (stop env s1)))) = userMedia env.
Proof.
  intros Hcancel Hok (Hraf & Hcam & Hpose & Hsrc & Han & Hac & Hbuf & Hheld) s1.
  assert (Hstart : start env s = (Ok tt, record (GetUserMedia (userMedia env)) s)).
  { unfold start, try_catch, acquire, bind, call, ret. rewrite Hok, Hcancel. reflexivity. }
  assert (Hstop : stop env s1 = (Ok tt, s1)).
  { unfold s1. rewrite Hstart. cbn [snd]. apply stop_noop; assumption. }
  assert (Htracks : activeTracks (held (log s1)) = userMedia env).
  { unfold s1. rewrite Hstart. cbn [snd record log]. rewrite held_app, Hheld. reflexivity. }
  split; [exact Hstart|]. split; [exact Hstop|]. split; [exact Htracks|].
  rewrite Hstop. exact Htracks.
Qed.

Lemma X14_cancelled_start_witness :
  activeTracks
    (held (log (snd (stop (mkEnv (fun _ => false) [1; 2]%nat true [])
                       (snd (start (mkEnv (fun _ => false) [1; 2]%nat true []) mounted))))))
  = [1; 2]%nat.
Proof.
  apply (X14_cancelled_start (mkEnv (fun _ => false) [1; 2]%nat true []) mounted
           eq_refl eq_refl mounted_stopped).
Defined.

(** X15: [start] never throws.  It makes the calls that are due in their
    order, up to the first one that fails; the calls after a failing one are
    not made, and the failure is logged once. *)
Theorem X15_start_until_failure env (s : State) :
  fst (start env s) = Ok tt
  /\ fst (acquire env s) = verdict env (startSteps env s)
  /\ log (snd (start env s))
     = log s ++ untilThrow env (startSteps env s)
       ++ match firstThrow env (startSteps env s) with
          | Some _ => [ConsoleError]
          | None => []
          end.
Proof.
  destruct s as [c v camera pose lm ac analyser buf raf n drawn history].
  unfold start, try_catch, acquire, render, requestAnimationFrame, startSteps, verdict,
    bind, gets, modify, ret, call.
  state_norm.
  destruct (cancelled env), v as [[src ready]|], c as [[w h [|]]|];
    cbv beta iota; cbn [context2d negb app untilThrow firstThrow];
    repeat (match goal with
            | |- context [throws env ?e] => destruct (throws env e) eqn:?
            end; cbv beta iota; state_norm;
            cbn [fst snd app untilThrow firstThrow context2d negb]);
    rewrite <- ?app_assoc, ?app_nil_r; cbn [app]; repeat split; reflexivity.
Qed.

(** ** The page *)

Lemma running_mounted env (s : State) (h : nat) : Running env s h -> Mounted s.
Proof.
  intros (Hcanvas & _ & _ & _ & Hvideo & _). split; assumption.
Qed.

Lemma released_mounted (s : State) : Mounted s -> Mounted (released s).
Proof.
  intros [Hcanvas Hvideo]. split; [exact Hcanvas|].
  unfold released. cbn [videoRef].
  destruct (videoRef s) as [v|]; [|contradiction].
  destruct (srcObject v); discriminate.
Qed.

Lemma stopped_step env (s : State) (t : Tick) : Stopped s -> step env s t = s.
Proof.
  intros (Hraf & Hcam & Hpose & _ & Han & _).
  destruct t; unfold step; rewrite ?Hraf, ?Hcam, ?Hpose, ?Han; reflexivity.
Qed.

Lemma sizeCanvas_kept (s : State) :
  Mounted s -> Stopped s -> Mounted (sizeCanvas s) /\ Stopped (sizeCanvas s).
Proof.
  intros [(canvas & Hc & Hctx) Hvideo] Hstopped. unfold sizeCanvas. rewrite Hc.
  split.
  - split; [|exact Hvideo]. eexists. split; [reflexivity|]. exact Hctx.
  - exact Hstopped.
Qed.

Lemma pageStep_kept env (p : bool * State) (ev : PageEvent) :
  quiet env -> cancelled env = false -> PageInv env p -> PageInv env (pageStep env p ev).
Proof.
  intros Hq Hcancel. destruct p as [started s]. unfold PageInv. cbn [fst snd].
  intros [Hm Hs]. destruct ev as [c|t]; unfold pageStep.
  - destruct started, c; cbn [onClick startDisabled stopDisabled negb Bool.eqb fst snd];
      try (split; assumption).
    + destruct Hs as [h Hrun]. unfold effect. cbn [negb].
      rewrite (stop_quiet env s Hq). cbn [snd].
      split; [apply released_mounted; exact Hm|]. apply (stop_running env s h Hrun).
    + unfold effect. cbn [negb].
      destruct Hm as [(canvas & Hc & Hctx) Hvideo].
      destruct (videoRef s) as [video|] eqn:Hv; [|contradiction].
      destruct (start_running env s canvas video Hq Hcancel Hs Hc Hctx Hv) as [_ Hrun].
      split; [exact (running_mounted _ _ _ Hrun)|]. exists (frameCounter s). exact Hrun.
  - cbn [fst snd]. destruct started.
    + destruct Hs as [h Hrun]. destruct (step_running env s h t Hq Hrun) as [h' Hrun'].
      split; [exact (running_mounted _ _ _ Hrun')|]. exists h'. exact Hrun'.
    + rewrite (stopped_step env s t Hs). split; assumption.
Qed.

(** X16: on the page, whatever is clicked and whatever the platform
    delivers in between, the session runs exactly when [started] is set:
    with [started] every resource of [start] is held once and one animation
    frame is pending; without it nothing is referenced and nothing is held.
    In particular resources are never acquired twice. *)
Theorem X16_page_session env (s0 : State) (evs : list PageEvent) :
  quiet env -> cancelled env = false -> Mounted s0 -> Stopped s0 ->
  let p := pageRun env (pageMount env s0) evs in
  PageInv env p
  /\ (fst p = true ->
      exists h, held (log (snd p)) = mkResources (userMedia env) 1 1 1 1 [S h])
  /\ (fst p = false -> held (log (snd p)) = noResources).
Proof.
  intros Hq Hcancel Hm Hs p.
  assert (Hinv : PageInv env p).
  { unfold p, pageRun.
    assert (H0 : PageInv env (pageMount env s0)).
    { unfold pageMount, PageInv. cbn [fst snd].
      destruct (sizeCanvas_kept s0 Hm Hs) as [Hm' Hs'].
      assert (Hstop : effect env false (sizeCanvas s0) = (Ok tt, sizeCanvas s0)).
      { destruct Hs' as (Hraf & Hcam & Hpose & Hsrc & Han & Hac & Hbuf & _).
        unfold effect. cbn [negb]. apply stop_noop; assumption. }
      rewrite Hstop. split; assumption. }
    revert H0. generalize (pageMount env s0). induction evs as [|ev evs IH]; intros q Hq0.
    - exact Hq0.
    - cbn [fold_left]. apply IH. apply pageStep_kept; assumption. }
  split; [exact Hinv|]. destruct Hinv as [_ Hrun]. split; intro Hstarted;
    rewrite Hstarted in Hrun.
  - destruct Hrun as [h Hrun]. exists h. apply Hrun.
  - apply Hrun.
Qed.

Lemma mounted_mounted : Mounted mounted.
Proof.
  split; [|discriminate]. eexists. split; reflexivity.
Qed.

Lemma X16_page_session_witness :
  let p := pageRun quietEnv (pageMount quietEnv mounted)
             [Clicked ClickStop; Clicked ClickStart; Clicked ClickStart;
              Platform (PoseResults (Some sampleShoulders)); Platform Paint;
              Clicked ClickStop; Clicked ClickStart] in
  fst p = true
  /\ exists h, held (log (snd p)) = mkResources (userMedia quietEnv) 1 1 1 1 [S h].
Proof.
  cbv zeta. split; [reflexivity|].
  apply (proj1 (proj2 (X16_page_session quietEnv mounted
                         [Clicked ClickStop; Clicked ClickStart; Clicked ClickStart;
                          Platform (PoseResults (Some sampleShoulders)); Platform Paint;
                          Clicked ClickStop; Clicked ClickStart]
                         quietEnv_quiet eq_refl mounted_mounted mounted_stopped))).
  reflexivity.
Defined.

(** ** Restarting *)

Lemma start_surface env (s : State) canvas video :
  quiet env -> cancelled env = false ->
  canvasRef s = Some canvas -> context2d canvas = true ->
  videoRef s = Some video ->
  surface (snd (start env s))
  = surface s
    ++ fst (drawFrame canvas (landmarksRef s)
              (Some (mkAnalyser 1024 0.6 (microphone env)))
              (Some (repeat 0 1024))
              (Some (mkVideo (Some (userMedia env)) (readyState video)))).
Proof.
  intros Hq Hcancel Hc Hctx Hv.
  destruct s as [c v camera pose lm ac analyser buf raf n drawn history].
  cbn [canvasRef videoRef] in Hc, Hv. subst c v.
  unfold start, try_catch, acquire, bind, gets, modify, ret, call.
  rewrite Hcancel. state_norm. rewrite !Hq.
  erewrite render_quiet by (try exact Hq; try exact Hctx; reflexivity).
  reflexivity.
Qed.

(** X17: [stop] and [start] leave the landmark cache alone, and the frame
    [start] renders is drawn from it: a session that is stopped and started
    again runs as before, and its first frame shows the bones of the pose
    cached before the stop. *)
Theorem X17_restart env (s : State) (h : nat) canvas (lm : Landmarks) :
  quiet env -> cancelled env = false ->
  Running env s h -> canvasRef s = Some canvas -> landmarksRef s = Some lm ->
  let s1 := snd (stop env s) in
  let s2 := snd (start env s1) in
  landmarksRef s1 = Some lm /\ landmarksRef s2 = Some lm
  /\ (exists h', Running env s2 h')
  /\ exists frame,
      surface s2 = surface s ++ frame
      /\ segments frame = expectedSegments canvas lm SKELETON_CONNECTIONS.
Proof.
  intros Hq Hcancel Hrun Hc Hlm s1 s2.
  assert (Hs1 : s1 = released s) by (unfold s1; rewrite stop_quiet by exact Hq; reflexivity).
  destruct (stop_running env s h Hrun) as [_ Hstopped].
  pose proof (released_mounted s (running_mounted _ _ _ Hrun)) as [_ Hvideo].
  destruct Hrun as ((canvas' & Hc' & Hctx) & _).
  rewrite Hc in Hc'. injection Hc' as <-.
  assert (Hc1 : canvasRef s1 = Some canvas) by (rewrite Hs1; exact Hc).
  assert (Hlm1 : landmarksRef s1 = Some lm) by (rewrite Hs1; exact Hlm).
  destruct (videoRef s1) as [video|] eqn:Hv1; [|rewrite Hs1 in Hv1; contradiction].
  rewrite <- Hs1 in Hstopped.
  destruct (start_quiet env s1 canvas video Hq Hcancel Hc1 Hctx Hv1)
    as (_ & _ & _ & _ & _ & Hlm2 & _).
  destruct (start_running env s1 canvas video Hq Hcancel Hstopped Hc1 Hctx Hv1)
    as [_ Hrun2].
  split; [exact Hlm1|]. split; [fold s2 in Hlm2; rewrite Hlm2; exact Hlm1|].
  split; [exists (frameCounter s1); exact Hrun2|].
  eexists. split.
  - unfold s2. rewrite (start_surface env s1 canvas video Hq Hcancel Hc1 Hctx Hv1).
    rewrite Hlm1. rewrite Hs1 at 1. reflexivity.
  - apply frame_segments.
Qed.

Lemma X17_restart_witness :
  let s := run quietEnv (snd (start quietEnv mounted))
             [PoseResults (Some sampleShoulders); Paint] in
  landmarksRef (snd (start quietEnv (snd (stop quietEnv s)))) = Some sampleShoulders.
Proof.
  cbv zeta.
  assert (Hrun : Running quietEnv
                   (run quietEnv (snd (start quietEnv mounted))
                      [PoseResults (Some sampleShoulders); Paint]) 1).
  { unfold Running, videoSource. cbn. repeat split; try discriminate.
    eexists. split; reflexivity. }
  apply (X17_restart quietEnv _ 1%nat sampleCanvas sampleShoulders
           quietEnv_quiet eq_refl Hrun eq_refl eq_refl).
Defined.

(** ** The detector's files *)

Lemma append_cancel_l (p a b : string) :
  (p ++ a)%string = (p ++ b)%string -> a = b.
Proof.
  induction p as [|c p IH]; cbn [append]; intro H; [exact H|].
  injection H as H. exact (IH H).
Qed.

(** X18: [CDN] sends different file names to different addresses, all
    under the pinned package version. *)
Theorem X18_CDN_injective (file1 file2 : string) :
  (CDN file1 = CDN file2 -> file1 = file2)
  /\ String.length (CDN file1) = (60 + String.length file1)%nat
  /\ substring 0 60 (CDN file1)
     = "https://cdn.jsdelivr.net/npm/@mediapipe/pose@0.5.1675469404/"%string.
Proof.
  split; [apply append_cancel_l|]. split; [reflexivity|].
  unfold CDN. cbn. destruct file1; reflexivity.
Qed.

(** ** Audio and pose in one frame *)

Lemma hasLandmarks_some (lm : option Landmarks) (l : Landmarks) :
  hasLandmarks lm = Some l -> lm = Some l /\ l <> [].
Proof.
  destruct lm as [[|p r]|]; try discriminate.
  intro H. injection H as <-. split; [reflexivity|discriminate].
Qed.

Lemma idle_segments canvas (mouthOpen : R) video :
  segments (drawBackground canvas ++ drawIdleFace canvas mouthOpen
            ++ drawPreview canvas video) = [].
Proof.
  rewrite <- (app_nil_r (drawBackground canvas ++ _)).
  rewrite segments_offPath; [reflexivity|]. rewrite forallb_app.
  rewrite (proj2 (face_offPath canvas (mkLandmark 0 0) (mkLandmark 0 0) mouthOpen video)).
  reflexivity.
Qed.

Lemma frame_thumbnails canvas lm analyser buf video :
  thumbnails (fst (drawFrame canvas lm analyser buf video))
  = thumbnails (drawPreview canvas video).
Proof.
  destruct (drawFrame_cases canvas lm analyser buf video)
    as [[_ ->]|[(l & ls & rs & _ & _ & _ & ->)|(l & _ & _ & _ & ->)]];
    rewrite !thumbnails_app, ?(proj2 (drawSkeleton_plain _ _)); reflexivity.
Qed.

(** X19: the audio moves the mouth only: skeleton, head, eyes and thumbnail
    of a frame are the same whatever analysis node and sample buffer are
    there, or none. *)
Theorem X19_audio_moves_mouth_only canvas lm video analyser buf analyser' buf' :
  let frame := fst (drawFrame canvas lm analyser buf video) in
  let frame' := fst (drawFrame canvas lm analyser' buf' video) in
  segments frame = segments frame'
  /\ arcs frame = arcs frame'
  /\ thumbnails frame = thumbnails frame'.
Proof.
  cbv zeta.
  assert (Hseg : segments (fst (drawFrame canvas lm analyser buf video))
                 = segments (fst (drawFrame canvas lm analyser' buf' video))).
  { destruct lm as [l|].
    - rewrite !frame_segments. reflexivity.
    - rewrite !drawFrame_idle by reflexivity. cbn [fst].
      rewrite !idle_segments. reflexivity. }
  split; [exact Hseg|]. rewrite !frame_thumbnails.
  split; [|reflexivity].
  destruct lm as [[|p l]|].
  - rewrite !drawFrame_idle by reflexivity. reflexivity.
  - set (c := p :: l).
    destruct (lm_at c LM.LEFT_SHOULDER) as [ls|] eqn:Hl;
      [destruct (lm_at c LM.RIGHT_SHOULDER) as [rs|] eqn:Hr|].
    + rewrite !(drawFrame_tracked _ _ _ _ _ _ _ Hl Hr). cbn [fst].
      rewrite !arcs_app. reflexivity.
    + rewrite !drawFrame_no_shoulders by (try discriminate; right; exact Hr). reflexivity.
    + rewrite !drawFrame_no_shoulders by (try discriminate; left; exact Hl). reflexivity.
  - rewrite !drawFrame_idle by reflexivity. reflexivity.
Qed.

Lemma Rmax_monotone (a b b' : R) : b <= b' -> Rmax a b <= Rmax a b'.
Proof.
  intro H. unfold Rmax. destruct (Rle_dec a b), (Rle_dec a b'); lra.
Qed.

(** X20: a louder signal never draws a smaller mouth: with the same pose and
    canvas, a larger RMS amplitude gives a mouth at least as high. *)
Theorem X20_louder_mouth canvas lm video a1 b1 a2 b2 (h1 h2 : R) :
  b1 <> [] -> b2 <> [] ->
  rmsOf (getFloatTimeDomainData a1 b1) <= rmsOf (getFloatTimeDomainData a2 b2) ->
  mouthHeights (fst (drawFrame canvas lm (Some a1) (Some b1) video)) = [h1] ->
  mouthHeights (fst (drawFrame canvas lm (Some a2) (Some b2) video)) = [h2] ->
  h1 <= h2.
Proof.
  intros _ _ Hrms H1 H2.
  assert (Henv : forall idle,
             fst (mouthOpenOr idle (Some a1) (Some b1))
             <= fst (mouthOpenOr idle (Some a2) (Some b2))).
  { intro idle. unfold mouthOpenOr, computeRms. cbn [fst].
    apply scaled_monotone. exact Hrms. }
  destruct (hasLandmarks lm) as [c|] eqn:Hhas.
  - destruct (hasLandmarks_some lm c Hhas) as [-> Hne].
    destruct (lm_at c LM.LEFT_SHOULDER) as [ls|] eqn:Hl;
      [destruct (lm_at c LM.RIGHT_SHOULDER) as [rs|] eqn:Hr|].
    + destruct (tracked_frame_shapes canvas c ls rs (Some a1) (Some b1) video Hl Hr)
        as [_ Hm1].
      destruct (tracked_frame_shapes canvas c ls rs (Some a2) (Some b2) video Hl Hr)
        as [_ Hm2].
      rewrite Hm1 in H1. rewrite Hm2 in H2.
      injection H1 as <-. injection H2 as <-.
      apply Rmax_monotone. pose proof (headRadius_range canvas ls rs) as Hr'.
      apply Rmult_le_compat_r; [lra|]. apply Rmult_le_compat_l; [lra|exact (Henv 0.15)].
    + rewrite (drawFrame_no_shoulders canvas c _ _ video Hne (or_intror Hr)) in H1.
      cbn [fst] in H1. rewrite !mouthHeights_app in H1.
      rewrite (proj2 (drawSkeleton_shapes canvas c)) in H1.
      rewrite (proj1 (proj2 (drawPreview_shapes canvas video))) in H1. discriminate H1.
    + rewrite (drawFrame_no_shoulders canvas c _ _ video Hne (or_introl Hl)) in H1.
      cbn [fst] in H1. rewrite !mouthHeights_app in H1.
      rewrite (proj2 (drawSkeleton_shapes canvas c)) in H1.
      rewrite (proj1 (proj2 (drawPreview_shapes canvas video))) in H1. discriminate H1.
  - destruct (idle_frame_shapes canvas lm (Some a1) (Some b1) video Hhas) as [_ Hm1].
    destruct (idle_frame_shapes canvas lm (Some a2) (Some b2) video Hhas) as [_ Hm2].
    rewrite Hm1 in H1. rewrite Hm2 in H2.
    injection H1 as <-. injection H2 as <-.
    apply Rmax_monotone. apply Rmult_le_compat_r; [lra|exact (Henv 0.12)].
Qed.

Lemma X20_louder_mouth_witness :
  Rmax 6 (fst (computeRms (mkAnalyser 1024 0.6 [0.02]) [0]) * 30)
  <= Rmax 6 (fst (computeRms (mkAnalyser 1024 0.6 [0.05]) [0]) * 30).
Proof.
  apply (X20_louder_mouth sampleCanvas None None
           (mkAnalyser 1024 0.6 [0.02]) [0] (mkAnalyser 1024 0.6 [0.05]) [0]);
    try discriminate.
  - rewrite !getFloatTimeDomainData_fill by reflexivity. cbn [timeDomainData].
    rewrite !rmsOf_single by lra. lra.
  - exact (proj2 (idle_frame_shapes sampleCanvas None (Some (mkAnalyser 1024 0.6 [0.02]))
                    (Some [0]) None eq_refl)).
  - exact (proj2 (idle_frame_shapes sampleCanvas None (Some (mkAnalyser 1024 0.6 [0.05]))
                    (Some [0]) None eq_refl)).
Defined.

Lemma X12_render_frame_witness :
  render pumpStopThrowsEnv
    (mkState None (Some (mkVideo None 0)) None None None None None None None 0 [] [])
  = (Ok tt, mkState None (Some (mkVideo None 0)) None None None None None None None 0 [] []).
Proof.
  apply (X12_render_frame pumpStopThrowsEnv
           (mkState None (Some (mkVideo None 0)) None None None None None None None 0 [] [])).
  left. reflexivity.
Defined.

Lemma X18_CDN_injective_witness :
  "pose_solution_packed_assets.data"%string = "pose_solution_packed_assets.data"%string.
Proof.
  apply (proj1 (X18_CDN_injective "pose_solution_packed_assets.data"
                  "pose_solution_packed_assets.data")).
  reflexivity.
Defined.
